(** * FileZee: temporary file storage service, lifecycle and integrity core

    Shallow embedding of
    - src/config/config.js and src/config/multer.js (unnamed part_003),
    - src/middleware/security.js,
    - src/models/FileMetadata.js,
    - src/routes/fileRoutes.js (POST /upload),
    - src/services/lifecycleService.js.

    The file system, the metadata store and the environment conditions that
    decide whether a system call fails are one [World]; the asynchronous
    functions of the source become computations in a state and error monad
    over it, thrown JavaScript errors becoming [Err].  Paths are the names
    of the files inside the upload directory ([config.uploadDir]). *)

From stdpp Require Import base gmap strings list.
From Stdlib Require Import String Ascii Sorted.

Open Scope N_scope.

(* ------------------------------------------------------------------ *)
(** ** Strings: the parts of Node's [path] module the code uses *)

Module Str.

Definition is_slash (c : ascii) : bool := Ascii.eqb c "/"%char.
Definition is_backslash (c : ascii) : bool := Ascii.eqb c "\"%char.
Definition is_dot (c : ascii) : bool := Ascii.eqb c "."%char.

(** [path.basename] (POSIX): trailing separators are ignored, then the
    part after the last separator is kept. *)
Fixpoint drop_slashes (l : list ascii) : list ascii :=
  match l with
  | c :: l' => if is_slash c then drop_slashes l' else l
  | [] => []
  end.

Fixpoint take_until_slash (l : list ascii) : list ascii :=
  match l with
  | c :: l' => if is_slash c then [] else c :: take_until_slash l'
  | [] => []
  end.

Definition basename (s : string) : string :=
  string_of_list_ascii
    (rev (take_until_slash (drop_slashes (rev (list_ascii_of_string s))))).

(** [path.extname] (POSIX): from the last dot of the base name, unless that
    dot is the first character of the base name or the base name is "..". *)
Fixpoint last_dot_from (i : nat) (l : list ascii) : option nat :=
  match l with
  | [] => None
  | c :: l' =>
      match last_dot_from (S i) l' with
      | Some j => Some j
      | None => if is_dot c then Some i else None
      end
  end.

Definition extname (s : string) : string :=
  let b := basename s in
  match last_dot_from 0 (list_ascii_of_string b) with
  | None => ""
  | Some O => ""
  | Some i => if String.eqb b ".." then "" else substring i (String.length b - i) b
  end.

(** [String.prototype.toLowerCase] on ASCII letters. *)
Definition lower_char (c : ascii) : ascii :=
  let n := nat_of_ascii c in
  if (Nat.leb 65 n && Nat.leb n 90)%bool then ascii_of_nat (n + 32) else c.

Fixpoint toLowerCase (s : string) : string :=
  match s with
  | EmptyString => EmptyString
  | String c s' => String (lower_char c) (toLowerCase s')
  end.

(** [s.replace(/\.\./g, '')]: leftmost, non-overlapping matches, one pass. *)
Fixpoint replace_dotdot (s : string) : string :=
  match s with
  | String a s' =>
      match s' with
      | String b rest =>
          if (is_dot a && is_dot b)%bool then replace_dotdot rest
          else String a (replace_dotdot s')
      | EmptyString => s
      end
  | EmptyString => EmptyString
  end.

(** [s.replace(/[/\\]/g, '')] *)
Fixpoint remove_separators (s : string) : string :=
  match s with
  | EmptyString => EmptyString
  | String c s' =>
      if (is_slash c || is_backslash c)%bool then remove_separators s'
      else String c (remove_separators s')
  end.

Definition startsWith_dot (s : string) : bool :=
  match s with
  | String c _ => is_dot c
  | EmptyString => false
  end.

(** Does the string contain the substring ".."? *)
Fixpoint has_dotdot (s : string) : bool :=
  match s with
  | String a s' =>
      match s' with
      | String b _ => ((is_dot a && is_dot b) || has_dotdot s')%bool
      | EmptyString => false
      end
  | EmptyString => false
  end.

Fixpoint has_char (p : ascii -> bool) (s : string) : bool :=
  match s with
  | EmptyString => false
  | String c s' => (p c || has_char p s')%bool
  end.

End Str.

(* ------------------------------------------------------------------ *)
(** ** Configuration (src/config/config.js) *)

Record Config := mkConfig {
  maxFileSizeMB : N;
  maxStorageMB : N;
  allowedMimeTypes : list string;
  blockedExtensions : list string;
  fileRetentionMs : N
}.

Definition maxFileSizeBytes (cfg : Config) : N := maxFileSizeMB cfg * 1024 * 1024.
Definition maxStorageBytes (cfg : Config) : N := maxStorageMB cfg * 1024 * 1024.

(** [list.includes(x)] on strings. *)
Definition includes (l : list string) (x : string) : bool :=
  existsb (String.eqb x) l.

(* ------------------------------------------------------------------ *)
(** ** Records and the world *)

(** The record built by [addFile]; dates are milliseconds since the epoch. *)
Record FileRecord := mkRecord {
  id : string;
  originalName : string;
  filename : string;
  mimeType : string;
  size : N;
  path : string;
  uploadedAt : N;
  expiresAt : N
}.

#[global] Instance FileRecord_eq_dec : EqDecision FileRecord.
Proof. solve_decision. Defined.

(** Observable effects, in the order the code performs them. *)
Inductive Event :=
  | EvUnlink (p : string)        (* an [fs.unlink] attempt *)
  | EvMetaDelete (i : string)    (* [this.metadata.delete(i)] *)
  | EvPersist.                   (* a successful snapshot write *)

Record World := mkWorld {
  disk : gmap string string;           (* upload directory: name -> bytes *)
  mem : gmap string FileRecord;        (* [this.metadata] *)
  snap : option (gmap string FileRecord);
      (* metadata/files.json: the records it holds, or [None] for a
         partial text that is not a JSON array *)
  meta_writable : bool;                (* whether writing files.json succeeds *)
  meta_truncates : bool;
      (* whether a failing write fails after [fs.writeFile] opened the
         file with flag 'w', which truncates it (ENOSPC, EIO), rather
         than at the open (EACCES, EROFS) *)
  locked : gset string;                (* files whose unlink fails with EPERM *)
  log : list Event
}.

Definition set_disk (d : gmap string string) (w : World) : World :=
  mkWorld d (mem w) (snap w) (meta_writable w) (meta_truncates w) (locked w) (log w).
Definition set_mem (m : gmap string FileRecord) (w : World) : World :=
  mkWorld (disk w) m (snap w) (meta_writable w) (meta_truncates w) (locked w) (log w).
Definition set_snap (m : option (gmap string FileRecord)) (w : World) : World :=
  mkWorld (disk w) (mem w) m (meta_writable w) (meta_truncates w) (locked w) (log w).
Definition emit (e : Event) (w : World) : World :=
  mkWorld (disk w) (mem w) (snap w) (meta_writable w) (meta_truncates w) (locked w) (log w ++ [e]).

(** Thrown errors. *)
Inductive Fault :=
  | ENOENT
  | EPERM
  | PersistFailed
  | InvalidFilename.

Inductive Result (A : Type) :=
  | Ok (a : A)
  | Err (f : Fault).
Arguments Ok {A} a.
Arguments Err {A} f.

(** The monad of asynchronous code that may throw. *)
Definition M (A : Type) : Type := World -> Result A * World.

Definition ret {A} (a : A) : M A := fun w => (Ok a, w).
Definition throw {A} (f : Fault) : M A := fun w => (Err f, w).
Definition bind {A B} (c : M A) (k : A -> M B) : M B :=
  fun w => match c w with
           | (Ok a, w') => k a w'
           | (Err f, w') => (Err f, w')
           end.
(** [try { c } catch (e) { h(e) }] *)
Definition catch {A} (c : M A) (h : Fault -> M A) : M A :=
  fun w => match c w with
           | (Ok a, w') => (Ok a, w')
           | (Err f, w') => h f w'
           end.
Definition modify (f : World -> World) : M unit := fun w => (Ok tt, f w).
Definition gets {A} (f : World -> A) : M A := fun w => (Ok (f w), w).

Notation "'let*' x := c 'in' k" := (bind c (fun x => k))
  (at level 200, x name, c at level 100, k at level 200).

(* ------------------------------------------------------------------ *)
(** ** File system calls *)

(** [fs.unlink(p)] *)
Definition unlink (p : string) : M unit :=
  let* _ := modify (emit (EvUnlink p)) in
  fun w =>
    if decide (p ∈ locked w) then (Err EPERM, w)
    else match disk w !! p with
         | None => (Err ENOENT, w)
         | Some _ => (Ok tt, set_disk (delete p (disk w)) w)
         end.

(** The world after a successful [fs.unlink(p)]. *)
Definition unlinked (p : string) (w : World) : World :=
  set_disk (delete p (disk w)) (emit (EvUnlink p) w).

(** [fs.readFile(p)] *)
Definition readFile (p : string) : M string :=
  fun w => match disk w !! p with
           | None => (Err ENOENT, w)
           | Some b => (Ok b, w)
           end.

(** [fs.access(p)] succeeds iff the file exists. *)
Definition exists_on_disk (p : string) (w : World) : bool :=
  bool_decide (is_Some (disk w !! p)).

(* ------------------------------------------------------------------ *)
(** ** The metadata store (src/models/FileMetadata.js)

    The store is taken after [initialize()] has run (every entry point
    calls it first, and it is a no-op afterwards).  [this.metadata] is a
    JavaScript [Map]; it is a [gmap] here, so iteration follows the map's
    key order instead of insertion order. *)

Module Store.

(** files.json after a failed [fs.writeFile(METADATA_FILE, ...)]: as it
    was when the open fails; when the write fails after the open, the
    file was truncated and holds at most a proper prefix of the JSON
    text, which is not a JSON array. *)
Definition failed_snap (w : World) : option (gmap string FileRecord) :=
  if meta_truncates w then None else snap w.

Definition failed_write (w : World) : World :=
  if meta_truncates w then set_snap None w else w.

(** [persist()]: writes the whole record set to files.json; a failed
    write is rethrown as "Failed to persist metadata". *)
Definition persist : M unit :=
  fun w => if meta_writable w then (Ok tt, emit EvPersist (set_snap (Some (mem w)) w))
           else (Err PersistFailed, failed_write w).

(** The multer file object [req.file] handed to [addFile]. *)
Record MulterFile := mkMulterFile {
  originalname : string;
  mimetype : string;
  mf_filename : string;
  mf_path : string;
  mf_size : N
}.

Definition values (w : World) : list FileRecord := map snd (map_to_list (mem w)).

(** The record literal of [addFile(fileData)]: [date] is the [new Date()]
    of [uploadedAt] and [now] the [Date.now()] of [expiresAt], read one
    after the other. *)
Definition make_record (cfg : Config) (date now : N) (fd : MulterFile) : FileRecord :=
  {| id := mf_filename fd;
     originalName := originalname fd;
     filename := mf_filename fd;
     mimeType := mimetype fd;
     size := mf_size fd;
     path := mf_path fd;
     uploadedAt := date;
     expiresAt := now + fileRetentionMs cfg |}.

(** [addFile(fileData)] *)
Definition addFile (cfg : Config) (date now : N) (fd : MulterFile) : M FileRecord :=
  let record := make_record cfg date now fd in
  let* _ := modify (fun w => set_mem (<[id record := record]> (mem w)) w) in
  let* _ := persist in
  ret record.

(** [getFile(fileId)] *)
Definition getFile (i : string) : M (option FileRecord) := gets (fun w => mem w !! i).

(** [getAllFiles()] *)
Definition getAllFiles : M (list FileRecord) := gets values.

(** [deleteFile(fileId)] *)
Definition deleteFile (i : string) : M (option FileRecord) :=
  let* r := getFile i in
  match r with
  | None => ret None
  | Some record =>
      let* _ := modify (fun w => set_mem (delete i (mem w)) (emit (EvMetaDelete i) w)) in
      let* _ := persist in
      ret (Some record)
  end.

(** [getExpiredFiles()]: [expirationDate <= now]. *)
Definition getExpiredFiles (now : N) : M (list FileRecord) :=
  gets (fun w => List.filter (fun r => expiresAt r <=? now) (values w)).

(** [getTotalStorageUsed()]: the sum of [record.size]. *)
Definition total_size (m : gmap string FileRecord) : N :=
  map_fold (fun _ r acc => acc + size r) 0 m.

Definition getTotalStorageUsed : M N := gets (fun w => total_size (mem w)).

(** [cleanOrphanedMetadata()] *)
Definition remove_ids (ids : list string) (w : World) : World :=
  fold_left (fun w i => set_mem (delete i (mem w)) (emit (EvMetaDelete i) w)) ids w.

Definition cleanOrphanedMetadata : M N :=
  let* orphaned := gets (fun w =>
        map id (List.filter (fun r => negb (exists_on_disk (path r) w)) (values w))) in
  let* _ := modify (remove_ids orphaned) in
  let* _ := if (0 <? List.length orphaned)%nat then persist else ret tt in
  ret (N.of_nat (List.length orphaned)).

(** Every record is stored under its own [id]: [addFile] sets
    [record.id] as the key, and [initialize] loads [record.id] as the key. *)
Definition keys_are_ids (m : gmap string FileRecord) : Prop :=
  map_Forall (fun k r => id r = k) m.

(** [w'] differs from [w] at most in the file [p] and in the log. *)
Definition keeps (p : string) (w w' : World) : Prop :=
  mem w' = mem w /\ snap w' = snap w /\ meta_writable w' = meta_writable w /\
  locked w' = locked w /\ forall q, q <> p -> disk w' !! q = disk w !! q.

End Store.

(* ------------------------------------------------------------------ *)
(** ** The lifecycle service (src/services/lifecycleService.js) *)

Module Lifecycle.
Import Store.

(** The loop body of [cleanupExpiredFiles]: the unlink error is logged
    (ENOENT silently) and the metadata is deleted anyway; an error of
    [deleteFile] is logged and the file is not counted. *)
Fixpoint expire_each (files : list FileRecord) (deletedCount : N) : M N :=
  match files with
  | [] => ret deletedCount
  | file :: rest =>
      let* n := catch
        (let* _ := catch (unlink (path file)) (fun _ => ret tt) in
         let* _ := deleteFile (id file) in
         ret (deletedCount + 1))
        (fun _ => ret deletedCount) in
      expire_each rest n
  end.

Definition cleanupExpiredFiles (now : N) : M N :=
  let* expiredFiles := getExpiredFiles now in
  expire_each expiredFiles 0.

Definition cleanupOrphanedMetadata : M N := cleanOrphanedMetadata.

(** [.gitkeep] and hidden files are skipped. *)
Definition skipped (fn : string) : bool :=
  (String.eqb fn ".gitkeep" || Str.startsWith_dot fn)%bool.

Fixpoint remove_unknown (known : list string) (files : list string) (deletedCount : N) : M N :=
  match files with
  | [] => ret deletedCount
  | fn :: rest =>
      if skipped fn then remove_unknown known rest deletedCount
      else if negb (includes known fn) then
        let* n := catch (let* _ := unlink fn in ret (deletedCount + 1))
                        (fun _ => ret deletedCount) in
        remove_unknown known rest n
      else remove_unknown known rest deletedCount
  end.

(** [fs.readdir(config.uploadDir)] *)
Definition readdir : M (list string) := gets (fun w => elements (dom (disk w))).

Definition cleanupOrphanedFiles : M N :=
  catch
    (let* files := readdir in
     let* allMetadata := getAllFiles in
     let knownFileIds := map filename allMetadata in
     remove_unknown knownFileIds files 0)
    (fun _ => ret 0).

Inductive CleanupResult :=
  | CleanupOk (expiredFiles orphanedMetadata orphanedFiles : N)
  | CleanupFailed (error : Fault).

Definition runCleanup (now : N) : M CleanupResult :=
  catch
    (let* expiredCount := cleanupExpiredFiles now in
     let* orphanedCount := cleanupOrphanedMetadata in
     let* orphanedFilesCount := cleanupOrphanedFiles in
     ret (CleanupOk expiredCount orphanedCount orphanedFilesCount))
    (fun e => ret (CleanupFailed e)).

(** The world after one iteration of [cleanupExpiredFiles]' loop on a
    record that is still in the store. *)
Definition after_expire (file : FileRecord) (w : World) : World :=
  let w1 := snd (unlink (path file) w) in
  let w2 := set_mem (delete (id file) (mem w1)) (emit (EvMetaDelete (id file)) w1) in
  snd (persist w2).

(** The directory entries the orphan-file phase can delete: not skipped,
    without a record, and unlinkable. *)
Definition deletable (known : list string) (lk : gset string) (fn : string) : bool :=
  (negb (skipped fn) && negb (includes known fn) && negb (bool_decide (fn ∈ lk)))%bool.

End Lifecycle.

(* ------------------------------------------------------------------ *)
(** ** Upload validation (multer fileFilter, src/middleware/security.js)
    and the upload route (src/routes/fileRoutes.js) *)

Module Upload.
Import Store.

(** [sanitizeFilename(filename)]; [Err] is the thrown "Invalid filename". *)
Definition sanitizeFilename (filename : string) : Result string :=
  let sanitized := Str.remove_separators (Str.replace_dotdot (Str.basename filename)) in
  if String.eqb sanitized "" then Err InvalidFilename else Ok sanitized.

(** [validateFileId]: [Some id] when [next()] is called with
    [req.params.fileId = id], [None] for the 400 responses. *)
Definition validateFileId (fileId : string) : option string :=
  if String.eqb fileId "" then None
  else match sanitizeFilename fileId with
       | Ok s => Some s
       | Err _ => None
       end.

Inductive UploadError :=
  | ExtensionBlocked (ext : string)
  | MimeTypeNotAllowed (mime : string)       (* fileFilter, declared type *)
  | StorageLimitExceeded
  | MimeTypeMismatch (claimed actual : string)
  | ActualTypeNotAllowed (actual : string)
  | TypeValidationFailed
  | StorageCheckFailed
  | FileTooLarge                            (* multer's LIMIT_FILE_SIZE *)
  | ServerError (f : Fault).

Inductive Response :=
  | Created (r : FileRecord)                (* 201 *)
  | Rejected (status : N) (e : UploadError).

(** A multipart upload as the route receives it.  [generated_name] is the
    value of [generateUniqueFilename(originalname)] (sanitized base name,
    timestamp and random bytes) for this request; [req_date] and
    [req_now] are the two clock readings of [addFile]. *)
Record UploadRequest := mkUploadRequest {
  req_originalname : string;
  req_mimetype : string;
  req_content : string;
  generated_name : string;
  req_date : N;
  req_now : N
}.

Section Pipeline.

Context (cfg : Config).
(** [FileType.fromBuffer]: the MIME type of the file's magic bytes, if any. *)
Context (fromBuffer : string -> option string).

(** multer's [fileFilter]; [Some e] is [cb(new Error(...), false)], which
    the error handler answers with 400 (both messages say "not allowed"). *)
Definition fileFilter (originalname mimetype : string) : option UploadError :=
  let ext := Str.toLowerCase (Str.extname originalname) in
  if includes (blockedExtensions cfg) ext then Some (ExtensionBlocked ext)
  else if negb (includes (allowedMimeTypes cfg) mimetype) then Some (MimeTypeNotAllowed mimetype)
  else None.

(** A middleware either answers ([Some response]) or calls [next()]. *)
Definition Middleware := MulterFile -> M (option Response).

(** [checkStorageLimit(metadataStore)] *)
Definition checkStorageLimit : Middleware := fun file =>
  catch
    (let* currentUsage := getTotalStorageUsed in
     let incomingSize := mf_size file in
     if maxStorageBytes cfg <? currentUsage + incomingSize then
       let* _ := unlink (mf_path file) in
       ret (Some (Rejected 507 StorageLimitExceeded))
     else ret None)
    (fun _ => ret (Some (Rejected 500 StorageCheckFailed))).

(** [validateFileMimeType] *)
Definition validateFileMimeType : Middleware := fun file =>
  catch
    (let* fileBuffer := readFile (mf_path file) in
     match fromBuffer fileBuffer with
     | Some detected =>
         if negb (String.eqb detected (mimetype file)) then
           let* _ := unlink (mf_path file) in
           ret (Some (Rejected 400 (MimeTypeMismatch (mimetype file) detected)))
         else if negb (includes (allowedMimeTypes cfg) detected) then
           let* _ := unlink (mf_path file) in
           ret (Some (Rejected 400 (ActualTypeNotAllowed detected)))
         else ret None
     | None => ret None
     end)
    (fun _ =>
       let* _ := catch (unlink (mf_path file)) (fun _ => ret tt) in
       ret (Some (Rejected 500 TypeValidationFailed))).

(** [req.file] as multer's disk storage fills it in. *)
Definition multer_file_of (req : UploadRequest) : MulterFile :=
  {| originalname := req_originalname req;
     mimetype := req_mimetype req;
     mf_filename := generated_name req;
     mf_path := generated_name req;
     mf_size := N.of_nat (String.length (req_content req)) |}.

(** The world after multer has written the uploaded bytes. *)
Definition written (req : UploadRequest) (w : World) : World :=
  set_disk (<[generated_name req := req_content req]> (disk w)) w.

(** The world after busboy stopped the stream of a file larger than
    [limits.fileSize]: the file holds its first [maxFileSizeBytes] bytes. *)
Definition written_prefix (req : UploadRequest) (w : World) : World :=
  set_disk (<[generated_name req :=
              substring 0 (N.to_nat (maxFileSizeBytes cfg)) (req_content req)]> (disk w)) w.

(** [router.post('/upload', upload.single('file'), checkStorageLimit,
    validateFileMimeType, handler)].  multer runs [fileFilter] before it
    writes the stream to [uploadDir/generated_name].  A file larger than
    [limits.fileSize = config.maxFileSizeBytes] is cut there; multer then
    removes what it wrote (an unlink error is only recorded in
    [err.storageErrors]) and calls [next] with LIMIT_FILE_SIZE, which
    [errorHandler] answers with 413.  An error of [addFile] goes to
    [next(error)], answered with 500. *)
Definition upload (req : UploadRequest) : M Response :=
  match fileFilter (req_originalname req) (req_mimetype req) with
  | Some e => ret (Rejected 400 e)
  | None =>
      let file := multer_file_of req in
      if maxFileSizeBytes cfg <? mf_size file then
        let* _ := modify (written_prefix req) in
        let* _ := catch (unlink (mf_path file)) (fun _ => ret tt) in
        ret (Rejected 413 FileTooLarge)
      else
      let* _ := modify (written req) in
      let* r1 := checkStorageLimit file in
      match r1 with
      | Some resp => ret resp
      | None =>
          let* r2 := validateFileMimeType file in
          match r2 with
          | Some resp => ret resp
          | None =>
              catch (let* metadata := addFile cfg (req_date req) (req_now req) file in
                     ret (Created metadata))
                    (fun e => ret (Rejected 500 (ServerError e)))
          end
      end
  end.

End Pipeline.

End Upload.

(* ------------------------------------------------------------------ *)
(** ** Concurrent store mutations on the event loop

    [addFile] and [deleteFile] (on an initialized store) run, in one
    event-loop turn, [this.metadata.set]/[delete], then [persist()] up to
    its first [await]: [Array.from(this.metadata.values())] and the start
    of [fs.writeFile(METADATA_FILE, ...)].  The write lands in a later
    turn, and the writes of concurrent calls land in any order.  A task
    is scheduled by its index. *)

Module Concurrent.

Inductive Op :=
  | OpPut (r : FileRecord)       (* addFile *)
  | OpDelete (i : string).       (* deleteFile *)

Inductive Task :=
  | Pending (op : Op)                              (* not started *)
  | Writing (snapshot : gmap string FileRecord)    (* awaiting fs.writeFile *)
  | Done.                                          (* promise resolved *)

Record State := mkState {
  tasks : list Task;
  cmem : gmap string FileRecord;   (* this.metadata *)
  csnap : gmap string FileRecord   (* files.json *)
}.

Definition apply_op (op : Op) (m : gmap string FileRecord) : gmap string FileRecord :=
  match op with
  | OpPut r => <[id r := r]> m
  | OpDelete i => delete i m
  end.

(** One event-loop turn of task [k]. *)
Definition step (k : nat) (s : State) : State :=
  match tasks s !! k with
  | Some (Pending op) =>
      let m := apply_op op (cmem s) in
      mkState (<[k := Writing m]> (tasks s)) m (csnap s)
  | Some (Writing snapshot) =>
      mkState (<[k := Done]> (tasks s)) (cmem s) snapshot
  | _ => s
  end.

Definition run (sched : list nat) (s : State) : State :=
  fold_left (fun s k => step k s) sched s.

Definition all_done (s : State) : bool :=
  forallb (fun t => match t with Done => true | _ => false end) (tasks s).

Definition start (ops : list Op) (m : gmap string FileRecord) : State :=
  mkState (map Pending ops) m m.

End Concurrent.

(* ------------------------------------------------------------------ *)
(** ** Unique file names (src/config/multer.js, unnamed part_003) *)

Module Names.

(** [path.basename(path, suffix)] (POSIX) with a non-empty suffix not
    longer than the path: Node's loop from the last character backwards,
    with its variables [start], [end], [matchedSlash], [extIdx] and
    [firstNonSlashEnd]. *)
Record BState := mkBState {
  b_start : Z;
  b_end : Z;
  matchedSlash : bool;
  extIdx : Z;
  firstNonSlashEnd : Z
}.

(** [suffix.charCodeAt(extIdx)] compared with [code]. *)
Definition char_matches (suffix : string) (idx : Z) (c : ascii) : bool :=
  match String.get (Z.to_nat idx) suffix with
  | Some a => Ascii.eqb c a
  | None => false
  end.

Fixpoint basename_loop (suffix : string) (cs : list (Z * ascii)) (st : BState) : BState :=
  match cs with
  | [] => st
  | (i, c) :: rest =>
      if Str.is_slash c then
        if negb (matchedSlash st) then
          (* start = i + 1; break *)
          mkBState (i + 1) (b_end st) (matchedSlash st) (extIdx st) (firstNonSlashEnd st)
        else basename_loop suffix rest st
      else
        let st1 :=
          if (firstNonSlashEnd st =? -1)%Z
          then mkBState (b_start st) (b_end st) false (extIdx st) (i + 1)
          else st in
        let st2 :=
          if (0 <=? extIdx st1)%Z then
            if char_matches suffix (extIdx st1) c then
              let e := (extIdx st1 - 1)%Z in
              if (e =? -1)%Z
              then mkBState (b_start st1) i (matchedSlash st1) e (firstNonSlashEnd st1)
              else mkBState (b_start st1) (b_end st1) (matchedSlash st1) e (firstNonSlashEnd st1)
            else mkBState (b_start st1) (firstNonSlashEnd st1) (matchedSlash st1) (-1)
                          (firstNonSlashEnd st1)
          else st1 in
        basename_loop suffix rest st2
  end.

(** The characters of a string with their indices, last one first. *)
Definition indexed_rev (s : string) : list (Z * ascii) :=
  rev (combine (map Z.of_nat (seq 0 (String.length s))) (list_ascii_of_string s)).

(** [s.slice(start, end)] for non-negative bounds. *)
Definition js_slice (s : string) (start stop : Z) : string :=
  substring (Z.to_nat start) (Z.to_nat stop - Z.to_nat start) s.

Definition basename_ext (p suffix : string) : string :=
  if (0 <? String.length suffix)%nat && (String.length suffix <=? String.length p)%nat then
    if String.eqb suffix p then ""
    else
      let st := basename_loop suffix (indexed_rev p)
                  (mkBState 0 (-1) true (Z.of_nat (String.length suffix) - 1) (-1)) in
      let stop :=
        if (b_start st =? b_end st)%Z then firstNonSlashEnd st
        else if (b_end st =? -1)%Z then Z.of_nat (String.length p)
        else b_end st in
      js_slice p (b_start st) stop
  else Str.basename p.

(** [/[^a-zA-Z0-9_-]/] *)
Definition is_safe (c : ascii) : bool :=
  let n := nat_of_ascii c in
  ((Nat.leb 97 n && Nat.leb n 122) || (Nat.leb 65 n && Nat.leb n 90) ||
   (Nat.leb 48 n && Nat.leb n 57) || Nat.eqb n 95 || Nat.eqb n 45)%bool.

(** [.replace(/[^a-zA-Z0-9_-]/g, '_')] *)
Fixpoint replace_unsafe (s : string) : string :=
  match s with
  | EmptyString => EmptyString
  | String c s' => String (if is_safe c then c else "_"%char) (replace_unsafe s')
  end.

(** The decimal digits of [n], most significant first ([`${n}`]); the
    number of bits of [n] bounds the number of its digits. *)
Fixpoint digits (fuel : nat) (n : N) (acc : string) : string :=
  match fuel with
  | O => acc
  | S f =>
      let acc' := String (ascii_of_N (48 + n mod 10)) acc in
      if n <? 10 then acc' else digits f (n / 10) acc'
  end.

Definition decimal (n : N) : string := digits (S (N.size_nat n)) n "".

(** [buf.toString('hex')] *)
Definition hex_digit (n : N) : ascii :=
  if n <? 10 then ascii_of_N (48 + n) else ascii_of_N (87 + n).

Fixpoint hex (bytes : list Byte.byte) : string :=
  match bytes with
  | [] => ""
  | b :: bs =>
      String (hex_digit (Byte.to_N b / 16)) (String (hex_digit (Byte.to_N b mod 16)) (hex bs))
  end.

(** [generateUniqueFilename(originalname)]; [timestamp] is [Date.now()]
    and [random] the 8 bytes of [crypto.randomBytes(8)]. *)
Definition generateUniqueFilename (originalname : string) (timestamp : N)
    (random : list Byte.byte) : string :=
  let ext := Str.extname originalname in
  let basename := basename_ext originalname ext in
  let sanitizedBasename := substring 0 50 (replace_unsafe basename) in
  sanitizedBasename ++ "_" ++ decimal timestamp ++ "_" ++ hex random ++ ext.

End Names.

(* ------------------------------------------------------------------ *)
(** ** Loading the store ([FileMetadataStore.initialize]) *)

Module Init.
Import Store.

(** What [fs.readFile(METADATA_FILE)] and [JSON.parse] give: no file
    (ENOENT), another read error, text that is not a JSON array of
    records, or the parsed array.  Records are plain JSON data, so
    [JSON.parse(JSON.stringify(records))] gives the records back. *)
Inductive MetaFile :=
  | MetaMissing
  | MetaUnreadable
  | MetaMalformed
  | MetaRecords (records : list FileRecord).

(** [records.forEach(record => this.metadata.set(record.id, record))] *)
Definition load_records (records : list FileRecord) (metadata : gmap string FileRecord)
    : gmap string FileRecord :=
  fold_left (fun m record => <[id record := record]> m) records metadata.

(** [initialize()] on the store [(initialized, metadata)]; [None] is the
    thrown "Failed to initialize metadata store". *)
Definition initialize (initialized : bool) (metadata : gmap string FileRecord) (file : MetaFile)
    : option (bool * gmap string FileRecord) :=
  if initialized then Some (initialized, metadata)
  else match file with
       | MetaMissing => Some (true, metadata)
       | MetaRecords records => Some (true, load_records records metadata)
       | MetaUnreadable | MetaMalformed => None
       end.

(** What [persist()] writes: [Array.from(this.metadata.values())]. *)
Definition persisted (metadata : gmap string FileRecord) : MetaFile :=
  MetaRecords (map snd (map_to_list metadata)).

(** What [fs.readFile] and [JSON.parse] give for files.json as the
    world holds it: the records [persist] wrote, or a partial text left by
    a write that failed after truncating the file. *)
Definition meta_file (contents : option (gmap string FileRecord)) : MetaFile :=
  match contents with
  | Some metadata => persisted metadata
  | None => MetaMalformed
  end.

End Init.

(* ------------------------------------------------------------------ *)
(** ** The other routes (src/routes/fileRoutes.js) and the error
    handler (src/middleware/errorHandler.js) *)

Module Routes.
Import Store Upload.

Inductive Reply :=
  | InvalidFileId                                   (* 400 from validateFileId *)
  | FileNotFound                                    (* 404 "File not found" *)
  | FileNotFoundOnDisk                              (* 404 "File not found on disk" *)
  | FileInfo (file : FileRecord)                    (* 200, the record's fields *)
  | FileDownload (contentType contentDisposition : string) (contentLength : N)
                 (body : string)                    (* headers and the streamed bytes *)
  | FileDeleted (fileId originalName : string)      (* 200 "File deleted successfully" *)
  | NextError (f : Fault).                          (* next(error) *)

Definition quote : string := String (ascii_of_nat 34) EmptyString.

(** [router.get('/files/:fileId', validateFileId, ...)] *)
Definition getFileInfo (rawId : string) : M Reply :=
  match validateFileId rawId with
  | None => ret InvalidFileId
  | Some fileId =>
      catch
        (let* file := getFile fileId in
         match file with
         | None => ret FileNotFound
         | Some file =>
             let* present := gets (exists_on_disk (path file)) in
             if present then ret (FileInfo file)
             else
               let* _ := deleteFile fileId in
               ret FileNotFoundOnDisk
         end)
        (fun error => ret (NextError error))
  end.

(** [router.get('/download/:fileId', validateFileId, ...)]: the headers,
    then [fs.createReadStream(file.path).pipe(res)], whose error goes to
    [next(error)]. *)
Definition downloadFile (rawId : string) : M Reply :=
  match validateFileId rawId with
  | None => ret InvalidFileId
  | Some fileId =>
      catch
        (let* file := getFile fileId in
         match file with
         | None => ret FileNotFound
         | Some file =>
             let* present := gets (exists_on_disk (path file)) in
             if present then
               let* body := readFile (path file) in
               ret (FileDownload (mimeType file)
                      ("attachment; filename=" ++ quote ++ originalName file ++ quote)
                      (size file) body)
             else
               let* _ := deleteFile fileId in
               ret FileNotFoundOnDisk
         end)
        (fun error => ret (NextError error))
  end.

(** [router.delete('/files/:fileId', validateFileId, ...)] *)
Definition deleteFileRoute (rawId : string) : M Reply :=
  match validateFileId rawId with
  | None => ret InvalidFileId
  | Some fileId =>
      catch
        (let* file := getFile fileId in
         match file with
         | None => ret FileNotFound
         | Some file =>
             let* _ := catch (unlink (path file))
                             (fun error => match error with
                                           | ENOENT => ret tt
                                           | _ => throw error
                                           end) in
             let* _ := deleteFile fileId in
             ret (FileDeleted (id file) (originalName file))
         end)
        (fun error => ret (NextError error))
  end.

(** [files.sort((a, b) => new Date(b.uploadedAt) - new Date(a.uploadedAt))].
    [Array.prototype.sort] is stable, so its result is the stable sort by
    the comparator; it is computed here by insertion: [x] goes before the
    first [y] that the comparator does not put before it. *)
Fixpoint insert_newest (x : FileRecord) (files : list FileRecord) : list FileRecord :=
  match files with
  | [] => [x]
  | y :: rest => if uploadedAt y <=? uploadedAt x then x :: files else y :: insert_newest x rest
  end.

Definition sort_newest_first (files : list FileRecord) : list FileRecord :=
  fold_right insert_newest [] files.

(** The [data] of the answer of [GET /files]: the records (each one
    mapped to its fields), [summary.totalFiles] and [summary.totalStorage]. *)
Record Listing := mkListing {
  listed : list FileRecord;
  totalFiles : nat;
  totalStorage : N
}.

(** [router.get('/files', ...)] *)
Definition listFiles : M Listing :=
  let* files := getAllFiles in
  let* totalStorage := getTotalStorageUsed in
  let files := sort_newest_first files in
  ret (mkListing files (List.length files) totalStorage).

(** A JavaScript error as [errorHandler] reads it. *)
Record JsError := mkJsError {
  err_code : option string;
  err_message : string;
  err_status : option N
}.

(** [s.includes(t)] *)
Fixpoint str_includes (s t : string) : bool :=
  (String.prefix t s ||
   match s with
   | EmptyString => false
   | String _ s' => str_includes s' t
   end)%bool.

Definition code_is (e : JsError) (c : string) : bool :=
  match err_code e with
  | Some c' => String.eqb c' c
  | None => false
  end.

(** [errorHandler(err, req, res, next)]: the status and the [error]
    field of the answer. *)
Definition errorHandler (err : JsError) : N * string :=
  if code_is err "LIMIT_FILE_SIZE" then (413, "File size exceeds the maximum allowed limit")
  else if code_is err "LIMIT_FILE_COUNT" then (400, "Too many files uploaded at once")
  else if code_is err "LIMIT_UNEXPECTED_FILE" then (400, "Unexpected field name in upload")
  else if (negb (String.eqb (err_message err) "") &&
           str_includes (err_message err) "not allowed")%bool
  then (400, err_message err)
  else if code_is err "ENOENT" then (404, "File not found")
  else if (code_is err "EACCES" || code_is err "EPERM")%bool
  then (500, "Permission denied accessing file")
  else (match err_status err with Some st => st | None => 500 end,
        if String.eqb (err_message err) "" then "Internal server error" else err_message err).

(** The errors multer's [fileFilter] passes to [cb]. *)
Definition fileFilter_error (e : UploadError) : JsError :=
  match e with
  | ExtensionBlocked ext =>
      mkJsError None ("File type " ++ ext ++ " is not allowed for security reasons") None
  | MimeTypeNotAllowed mime =>
      mkJsError None ("MIME type " ++ mime ++ " is not allowed") None
  | _ => mkJsError None "" None
  end.

End Routes.

(* ------------------------------------------------------------------ *)
(** ** Starting and stopping the sweep (FileLifecycleService) *)

Module Service.

(** [cleanupTimer] and [isRunning], with the intervals the process has
    active, the next timer id, and the number of [runCleanup()] calls
    started so far. *)
Record Service := mkService {
  cleanupTimer : option nat;
  isRunning : bool;
  intervals : list nat;
  next_timer : nat;
  cleanupRuns : nat
}.

(** [new FileLifecycleService()] *)
Definition initial : Service := mkService None false [] 0 0.

(** [start()]: [runCleanup()] at once, then [setInterval]. *)
Definition start (s : Service) : Service :=
  if isRunning s then s
  else
    let t := next_timer s in
    mkService (Some t) true (t :: intervals s) (S t) (S (cleanupRuns s)).

(** [stop()] *)
Definition stop (s : Service) : Service :=
  if negb (isRunning s) then s
  else match cleanupTimer s with
       | Some t => mkService None false (List.remove Nat.eq_dec t (intervals s))
                             (next_timer s) (cleanupRuns s)
       | None => mkService None false (intervals s) (next_timer s) (cleanupRuns s)
       end.

(** One period of [config.cleanupIntervalMs]: every active interval
    calls [runCleanup()]. *)
Definition tick (s : Service) : Service :=
  mkService (cleanupTimer s) (isRunning s) (intervals s) (next_timer s)
            (cleanupRuns s + List.length (intervals s)).

Inductive Command := Start | Stop | Tick.

Definition exec (s : Service) (c : Command) : Service :=
  match c with
  | Start => start s
  | Stop => stop s
  | Tick => tick s
  end.

Definition run (cs : list Command) : Service := fold_left exec cs initial.

End Service.

(* ------------------------------------------------------------------ *)
(** ** Concrete inputs *)

Module Sample.
Import Store Upload.

Definition cfg : Config :=
  mkConfig 1 1 ["image/png"; "text/plain"] [".exe"; ".js"] 86400000.

(** A magic-byte sniffer recognising PNG and Windows executables. *)
Definition sniff (buf : string) : option string :=
  if String.prefix "PNG" buf then Some "image/png"
  else if String.prefix "MZ" buf then Some "application/x-msdownload"
  else None.

Definition empty_world : World := mkWorld ∅ ∅ (Some ∅) true false ∅ [].

Definition req (name mime content gen : string) : UploadRequest :=
  mkUploadRequest name mime content gen 1000 1000.

(** A world whose metadata file cannot be opened for writing (read-only). *)
Definition readonly_world : World := mkWorld ∅ ∅ (Some ∅) false false ∅ [].

(** A world whose disk is full: writing the metadata file fails after
    the open truncated it. *)
Definition full_world : World := mkWorld ∅ ∅ (Some ∅) false true ∅ [].

Definition multer_file (name mime gen : string) (sz : N) : MulterFile :=
  mkMulterFile name mime gen gen sz.


Definition rec_of (gen : string) (sz expires : N) : FileRecord :=
  mkRecord gen gen gen "text/plain" sz gen 0 expires.

(** A store with a live record whose file is gone, an extra file without
    a record, and a metadata file that cannot be written. *)
Definition sweep_world : World :=
  mkWorld {[ "orphan.bin" := "junk" ]}
          {[ "gone_1_aa.txt" := rec_of "gone_1_aa.txt" 4 5000 ]}
          (Some {[ "gone_1_aa.txt" := rec_of "gone_1_aa.txt" 4 5000 ]})
          false false ∅ [].

(** An extra hidden file without a record. *)
Definition hidden_orphan_world : World :=
  mkWorld {[ ".orphan" := "junk" ]} ∅ (Some ∅) true false ∅ [].

(** Two expired records, one of whose files is already gone. *)
Definition expired_world : World :=
  mkWorld {[ "a_1_aa.txt" := "aa" ]}
          {[ "a_1_aa.txt" := rec_of "a_1_aa.txt" 2 10; "b_1_bb.txt" := rec_of "b_1_bb.txt" 2 10 ]}
          (Some ∅) true false ∅ [].

(** Two uploads whose [addFile] calls run concurrently. *)
Definition two_puts : Concurrent.State :=
  Concurrent.start [Concurrent.OpPut (rec_of "a_1_aa.txt" 1 10);
                    Concurrent.OpPut (rec_of "b_1_bb.txt" 1 10)] ∅.

End Sample.

(* ================================================================== *)
(** * Properties *)

Module Props.
Import Store Lifecycle Upload Sample.

Ltac run_closed := vm_compute; repeat split; reflexivity.

(* ------------------------------------------------------------------ *)
(** ** sanitizeFilename and validateFileId *)

Lemma remove_separators_no_slash (s : string) :
  Str.has_char Str.is_slash (Str.remove_separators s) = false /\
  Str.has_char Str.is_backslash (Str.remove_separators s) = false.
Proof.
  induction s as [|c s IH]; simpl; [auto|].
  destruct (Str.is_slash c) eqn:E1; simpl; [exact IH|].
  destruct (Str.is_backslash c) eqn:E2; simpl; [exact IH|].
  rewrite E1, E2. exact IH.
Qed.

(** The two separator characters never survive sanitization, and the
    result is never empty. *)
Lemma sanitizeFilename_no_separators (s t : string) :
  sanitizeFilename s = Ok t ->
  t <> "" /\ Str.has_char Str.is_slash t = false /\ Str.has_char Str.is_backslash t = false.
Proof.
  unfold sanitizeFilename. intros H.
  destruct (String.eqb _ "") eqn:E; [discriminate|].
  injection H as <-. split.
  - intros Ht. rewrite Ht in E. discriminate.
  - apply remove_separators_no_slash.
Qed.

(** C10 (code_bug).  For the file id [.\.] (URL [.%5C.]), [sanitizeFilename]
    removes no "..", then removes the backslash, and so returns "..";
    [validateFileId] passes ".." on to the route handlers. *)
Theorem sanitizeFilename_dot_backslash_dot :
  sanitizeFilename ".\." = Ok ".." /\
  validateFileId ".\." = Some ".." /\
  Str.has_dotdot ".." = true.
Proof. run_closed. Qed.

(* ------------------------------------------------------------------ *)
(** ** Metadata persistence *)


(** The two outcomes of [addFile]. *)
Lemma addFile_outcome (c : Config) (date now : N) (fd : MulterFile) (w : World) :
  let r := make_record c date now fd in
  let m' := <[mf_filename fd := r]> (mem w) in
  addFile c date now fd w =
    if meta_writable w then (Ok r, emit EvPersist (set_snap (Some m') (set_mem m' w)))
    else (Err PersistFailed, failed_write (set_mem m' w)).
Proof.
  unfold addFile, bind, modify, persist, ret. simpl.
  destruct (meta_writable w); reflexivity.
Qed.

Lemma failed_write_frame w :
  mem (failed_write w) = mem w /\ disk (failed_write w) = disk w /\
  meta_writable (failed_write w) = meta_writable w /\
  meta_truncates (failed_write w) = meta_truncates w /\
  locked (failed_write w) = locked w /\ log (failed_write w) = log w /\
  snap (failed_write w) = failed_snap w.
Proof. unfold failed_write, failed_snap. destruct (meta_truncates w) eqn:E; cbn; rewrite ?E; repeat split; reflexivity. Qed.



(* ------------------------------------------------------------------ *)
(** ** Upload pipeline: cleanup on failure *)

(** C1 (code_bug).  An upload that passes every validation gate but whose
    metadata write fails is answered with 500, and the bytes written by
    multer stay in the upload directory (the record also stays in memory). *)
Theorem upload_persist_failure_leaves_file :
  let r := req "notes.txt" "text/plain" "hello" "notes_1000_ab.txt" in
  fst (upload cfg sniff r readonly_world) = Ok (Rejected 500 (ServerError PersistFailed)) /\
  disk (snd (upload cfg sniff r readonly_world)) !! "notes_1000_ab.txt" = Some "hello" /\
  disk readonly_world !! "notes_1000_ab.txt" = None.
Proof. run_closed. Qed.

(* ------------------------------------------------------------------ *)
(** ** Monad and file-system lemmas *)

Lemma bind_ok {A B} (c : M A) (k : A -> M B) w a w' :
  c w = (Ok a, w') -> bind c k w = k a w'.
Proof. unfold bind. intros ->. reflexivity. Qed.

Lemma bind_err {A B} (c : M A) (k : A -> M B) w f w' :
  c w = (Err f, w') -> bind c k w = (Err f, w').
Proof. unfold bind. intros ->. reflexivity. Qed.

Lemma unlink_ok p w b :
  p ∉ locked w -> disk w !! p = Some b -> unlink p w = (Ok tt, unlinked p w).
Proof.
  intros Hl Hd. unfold unlink, bind, modify. cbn.
  rewrite decide_False by exact Hl. rewrite Hd. reflexivity.
Qed.

(** Whatever its outcome, [fs.unlink(p)] changes nothing but the file [p]
    and appends its attempt to the log. *)
Lemma unlink_frame p w :
  mem (snd (unlink p w)) = mem w /\
  meta_writable (snd (unlink p w)) = meta_writable w /\
  locked (snd (unlink p w)) = locked w /\
  log (snd (unlink p w)) = log w ++ [EvUnlink p] /\
  (forall q, q <> p -> disk (snd (unlink p w)) !! q = disk w !! q) /\
  (fst (unlink p w) = Ok tt <-> ((p ∉ locked w) /\ is_Some (disk w !! p))) /\
  (fst (unlink p w) = Ok tt -> disk (snd (unlink p w)) !! p = None) /\
  (fst (unlink p w) <> Ok tt -> disk (snd (unlink p w)) = disk w).
Proof.
  unfold unlink, bind, modify. cbn.
  destruct (decide (p ∈ locked w)) as [Hl|Hl]; cbn.
  - repeat split; try reflexivity; try discriminate; intros [? _]; contradiction.
  - destruct (disk w !! p) as [b|] eqn:Hd; cbn.
    + repeat split; try reflexivity; eauto.
      * intros q Hq. apply lookup_delete_ne. congruence.
      * intros _. apply lookup_delete_eq.
      * intros H. contradiction.
    + repeat split; try reflexivity; try discriminate.
      intros [_ [? H]]. discriminate.
Qed.

(* ------------------------------------------------------------------ *)
(** ** The upload middlewares *)

(** The upload route, middleware by middleware. *)
Lemma upload_unfold c sn rq w :
  upload c sn rq w =
  match fileFilter c (req_originalname rq) (req_mimetype rq) with
  | Some e => (Ok (Rejected 400 e), w)
  | None =>
      if maxFileSizeBytes c <? mf_size (multer_file_of rq) then
        (Ok (Rejected 413 FileTooLarge), snd (unlink (generated_name rq) (written_prefix c rq w)))
      else
      match checkStorageLimit c (multer_file_of rq) (written rq w) with
      | (Ok (Some resp), w2) => (Ok resp, w2)
      | (Ok None, w2) =>
          match validateFileMimeType c sn (multer_file_of rq) w2 with
          | (Ok (Some resp), w3) => (Ok resp, w3)
          | (Ok None, w3) =>
              match addFile c (req_date rq) (req_now rq) (multer_file_of rq) w3 with
              | (Ok r, w4) => (Ok (Created r), w4)
              | (Err f, w4) => (Ok (Rejected 500 (ServerError f)), w4)
              end
          | (Err f, w3) => (Err f, w3)
          end
      | (Err f, w2) => (Err f, w2)
      end
  end.
Proof.
  unfold upload. destruct (fileFilter _ _ _); [reflexivity|].
  destruct (_ <? _).
  { unfold bind, modify, catch, ret. destruct (unlink _ _) as [[] w1]; reflexivity. }
  unfold bind at 1, modify.
  unfold bind at 1. destruct (checkStorageLimit _ _ _) as [[[resp|]|f] w2]; try reflexivity.
  unfold bind at 1. destruct (validateFileMimeType _ _ _ _) as [[[resp|]|f] w3]; try reflexivity.
  unfold catch, bind, ret. destruct (addFile _ _ _ _ _) as [[r|f] w4]; reflexivity.
Qed.

(** A file within [limits.fileSize] passes multer's size limit. *)
Lemma size_gate_pass c rq :
  N.of_nat (String.length (req_content rq)) <= maxFileSizeBytes c ->
  (maxFileSizeBytes c <? mf_size (multer_file_of rq)) = false.
Proof. intros H. apply N.ltb_ge. exact H. Qed.

Lemma fileFilter_pass c name mime :
  fileFilter c name mime = None -> includes (allowedMimeTypes c) mime = true.
Proof.
  unfold fileFilter. destruct (includes _ _); [discriminate|].
  destruct (includes (allowedMimeTypes c) mime); [reflexivity | discriminate].
Qed.

Lemma checkStorageLimit_spec c file w b :
  mf_path file ∉ locked w -> disk w !! mf_path file = Some b ->
  checkStorageLimit c file w =
    if maxStorageBytes c <? total_size (mem w) + mf_size file
    then (Ok (Some (Rejected 507 StorageLimitExceeded)), unlinked (mf_path file) w)
    else (Ok None, w).
Proof.
  intros Hl Hd. unfold checkStorageLimit, catch, getTotalStorageUsed, gets.
  rewrite (bind_ok _ _ w (total_size (mem w)) w) by reflexivity.
  destruct (_ <? _).
  - rewrite (bind_ok _ _ w tt (unlinked (mf_path file) w)) by (eapply unlink_ok; eauto).
    reflexivity.
  - reflexivity.
Qed.

(** [checkStorageLimit] calls [next()] only below the limit, and then
    leaves the world as it is. *)
Lemma checkStorageLimit_next c file w w' :
  checkStorageLimit c file w = (Ok None, w') ->
  w' = w /\ (maxStorageBytes c <? total_size (mem w) + mf_size file) = false.
Proof.
  unfold checkStorageLimit, catch, getTotalStorageUsed, gets.
  rewrite (bind_ok _ _ w (total_size (mem w)) w) by reflexivity.
  destruct (_ <? _).
  - unfold bind. destruct (unlink _ _) as [[]]; cbn; discriminate.
  - intros H. injection H as <-. auto.
Qed.

Lemma validateFileMimeType_spec c sn file w b :
  mf_path file ∉ locked w -> disk w !! mf_path file = Some b ->
  validateFileMimeType c sn file w =
    match sn b with
    | Some d =>
        if negb (String.eqb d (mimetype file)) then
          (Ok (Some (Rejected 400 (MimeTypeMismatch (mimetype file) d))), unlinked (mf_path file) w)
        else if negb (includes (allowedMimeTypes c) d) then
          (Ok (Some (Rejected 400 (ActualTypeNotAllowed d))), unlinked (mf_path file) w)
        else (Ok None, w)
    | None => (Ok None, w)
    end.
Proof.
  intros Hl Hd. unfold validateFileMimeType, catch.
  rewrite (bind_ok _ _ w b w) by (unfold readFile; rewrite Hd; reflexivity).
  destruct (sn b) as [d|]; [|reflexivity].
  destruct (negb (String.eqb d _)).
  - rewrite (bind_ok _ _ w tt (unlinked (mf_path file) w)) by (eapply unlink_ok; eauto).
    reflexivity.
  - destruct (negb (includes _ d)); [|reflexivity].
    rewrite (bind_ok _ _ w tt (unlinked (mf_path file) w)) by (eapply unlink_ok; eauto).
    reflexivity.
Qed.

(** A [catch]-guarded unlink followed by an answer always answers. *)
Lemma unlink_then_answer {A} p (h : Fault -> M unit) (a : A) w :
  (forall f w0, fst (h f w0) = Ok tt) ->
  fst (bind (catch (unlink p) h) (fun _ => ret a) w) = Ok a.
Proof.
  intros Hh. unfold bind, catch.
  destruct (unlink p w) as [[]  w1]; [reflexivity|].
  specialize (Hh f w1). destruct (h f w1) as [[] w2]; cbn in *; [reflexivity | discriminate].
Qed.

Lemma fileFilter_errors c name mime e :
  fileFilter c name mime = Some e ->
  (exists x, e = ExtensionBlocked x) \/ (exists x, e = MimeTypeNotAllowed x).
Proof.
  unfold fileFilter. destruct (includes _ _).
  - intros H. injection H as <-. eauto.
  - destruct (negb _); [|discriminate]. intros H. injection H as <-. eauto.
Qed.

(** The answers of [checkStorageLimit]; it never throws. *)
Lemma checkStorageLimit_outcomes c file w r w' :
  checkStorageLimit c file w = (r, w') ->
  r = Ok None \/ r = Ok (Some (Rejected 507 StorageLimitExceeded)) \/
  r = Ok (Some (Rejected 500 StorageCheckFailed)).
Proof.
  unfold checkStorageLimit, catch, getTotalStorageUsed, gets.
  rewrite (bind_ok _ _ w (total_size (mem w)) w) by reflexivity.
  destruct (_ <? _).
  - unfold bind. destruct (unlink _ _) as [[] w1]; cbn; intros H; injection H as <- _; auto.
  - intros H. injection H as <- _. auto.
Qed.

(** The answers of [validateFileMimeType]; it never throws.  It calls
    [next()] only when the sniffed type is unknown or equals the declared
    one, and it reports a not-allowed actual type only when that type
    equals the declared one. *)
Lemma validateFileMimeType_outcomes c sn file w r w' :
  validateFileMimeType c sn file w = (r, w') ->
  match r with
  | Ok None =>
      w' = w /\
      exists b, disk w !! mf_path file = Some b /\
        (sn b = None \/ (sn b = Some (mimetype file) /\ includes (allowedMimeTypes c) (mimetype file) = true))
  | Ok (Some (Rejected _ (ActualTypeNotAllowed x))) =>
      x = mimetype file /\ includes (allowedMimeTypes c) x = false
  | Ok (Some (Created _)) => False
  | Ok (Some _) => True
  | Err _ => False
  end.
Proof.
  unfold validateFileMimeType.
  set (handler := fun _ : Fault =>
         let* _ := catch (unlink (mf_path file)) (fun _ => ret tt) in
         ret (Some (Rejected 500 TypeValidationFailed))).
  assert (Hh : forall f w0, fst (handler f w0) = Ok (Some (Rejected 500 TypeValidationFailed))).
  { intros f w0. apply unlink_then_answer. reflexivity. }
  unfold catch, readFile, bind at 1.
  destruct (disk w !! mf_path file) as [b|] eqn:Hd.
  2:{ intros H. specialize (Hh ENOENT w). rewrite H in Hh. cbn in Hh. subst r. exact I. }
  destruct (sn b) as [d|] eqn:Hs.
  2:{ intros H. injection H as <- <-. split; [reflexivity|]. eauto. }
  destruct (String.eqb d (mimetype file)) eqn:Eq; cbn.
  - apply String.eqb_eq in Eq. subst d.
    destruct (includes (allowedMimeTypes c) (mimetype file)) eqn:Hi; cbn.
    + intros H. injection H as <- <-. split; [reflexivity|]. eauto.
    + unfold bind. destruct (unlink _ _) as [[] w1]; cbn.
      * intros H. injection H as <- _. auto.
      * intros H. specialize (Hh f w1). rewrite H in Hh. cbn in Hh. subst r. exact I.
  - unfold bind. destruct (unlink _ _) as [[] w1]; cbn.
    + intros H. injection H as <- _. exact I.
    + intros H. specialize (Hh f w1). rewrite H in Hh. cbn in Hh. subst r. exact I.
Qed.

Lemma written_lookup rq w :
  disk (written rq w) !! generated_name rq = Some (req_content rq).
Proof. apply lookup_insert_eq. Qed.

(* ------------------------------------------------------------------ *)
(** ** Content sniffing *)

(** C3 (corrected), counterexample: a Windows executable renamed to
    [.txt] and declared [text/plain] (allow-listed) is sniffed as
    [application/x-msdownload], which is not allow-listed; the upload is
    answered with the mismatch error, not with the "actual type not
    allowed" one. *)
Lemma unallowed_sniffed_type_reports_mismatch :
  let r := req "setup.txt" "text/plain" "MZ..." "setup_1000_cd.txt" in
  sniff "MZ..." = Some "application/x-msdownload" /\
  includes (allowedMimeTypes cfg) "application/x-msdownload" = false /\
  includes (allowedMimeTypes cfg) "text/plain" = true /\
  fst (upload cfg sniff r empty_world) =
    Ok (Rejected 400 (MimeTypeMismatch "text/plain" "application/x-msdownload")).
Proof. run_closed. Qed.

(** C3 (corrected), amended: an upload whose bytes are sniffed as a type
    [m] that is not allow-listed is never stored and never answered with
    "actual type not allowed"; once it passes multer's filter (so its
    declared type is allow-listed) and multer's size limit
    ([config.maxFileSizeBytes]), is within the storage limit, and its file
    can be unlinked, it is answered with the type mismatch error. *)
Theorem unallowed_sniffed_type_rejected c sn rq w m :
  sn (req_content rq) = Some m ->
  includes (allowedMimeTypes c) m = false ->
  (forall r, fst (upload c sn rq w) <> Ok (Created r)) /\
  (forall st x, fst (upload c sn rq w) <> Ok (Rejected st (ActualTypeNotAllowed x))) /\
  (fileFilter c (req_originalname rq) (req_mimetype rq) = None ->
   N.of_nat (String.length (req_content rq)) <= maxFileSizeBytes c ->
   generated_name rq ∉ locked w ->
   (maxStorageBytes c <? total_size (mem w) + N.of_nat (String.length (req_content rq))) = false ->
   fst (upload c sn rq w) = Ok (Rejected 400 (MimeTypeMismatch (req_mimetype rq) m))).
Proof.
  intros Hsn Hm.
  assert (Hnever : forall resp w', upload c sn rq w = (Ok resp, w') ->
            (forall r, resp <> Created r) /\ (forall st x, resp <> Rejected st (ActualTypeNotAllowed x))).
  { intros resp w'. rewrite upload_unfold.
    destruct (fileFilter c _ _) as [e|] eqn:Hf.
    { intros H. injection H as <- _.
      destruct (fileFilter_errors _ _ _ _ Hf) as [[x ->]|[x ->]]; split; congruence. }
    destruct (_ <? _).
    { intros H. injection H as <- _. split; congruence. }
    destruct (checkStorageLimit c _ _) as [r1 w2] eqn:Hc.
    destruct (checkStorageLimit_outcomes _ _ _ _ _ Hc) as [->|[->| ->]].
    2,3: intros H; injection H as <- _; split; congruence.
    destruct (checkStorageLimit_next _ _ _ _ Hc) as [-> _].
    destruct (validateFileMimeType c sn _ _) as [r2 w3] eqn:Hv.
    pose proof (validateFileMimeType_outcomes _ _ _ _ _ _ Hv) as Ho.
    destruct r2 as [[resp2|]|f]; [| |contradiction].
    - intros H. injection H as <- _. destruct resp2 as [r|st e]; [contradiction|].
      split; [congruence|]. intros st' x Heq. injection Heq as <- ->.
      destruct Ho as [-> Hx]. cbn in Hx.
      rewrite (fileFilter_pass _ _ _ Hf) in Hx. discriminate.
    - exfalso. destruct Ho as [_ [b [Hb Hcase]]].
      change (mf_path (multer_file_of rq)) with (generated_name rq) in Hb.
      rewrite written_lookup in Hb. injection Hb as <-.
      rewrite Hsn in Hcase. destruct Hcase as [H|[H Hi]]; [discriminate|].
      injection H as ->. cbn in Hi. congruence. }
  split; [|split].
  - intros r H. destruct (upload c sn rq w) as [o w'] eqn:Hu. cbn in H. subst o.
    eapply (proj1 (Hnever _ _ eq_refl)). reflexivity.
  - intros st x H. destruct (upload c sn rq w) as [o w'] eqn:Hu. cbn in H. subst o.
    eapply (proj2 (Hnever _ _ eq_refl)). reflexivity.
  - intros Hf Hsz Hl Hq. rewrite upload_unfold, Hf, (size_gate_pass _ _ Hsz).
    rewrite (checkStorageLimit_spec c (multer_file_of rq) (written rq w) (req_content rq))
      by (exact Hl || apply written_lookup).
    cbn [mem written set_disk mf_size multer_file_of]. rewrite Hq.
    rewrite (validateFileMimeType_spec c sn (multer_file_of rq) (written rq w) (req_content rq))
      by (exact Hl || apply written_lookup).
    rewrite Hsn. cbn [mimetype multer_file_of].
    destruct (String.eqb m (req_mimetype rq)) eqn:E.
    + apply String.eqb_eq in E. subst m.
      rewrite (fileFilter_pass _ _ _ Hf) in Hm. discriminate.
    + reflexivity.
Qed.

(** Witness of [unallowed_sniffed_type_rejected] at the renamed executable. *)
Lemma unallowed_sniffed_type_rejected_witness :
  let r := req "setup.txt" "text/plain" "MZ..." "setup_1000_cd.txt" in
  sniff (req_content r) = Some "application/x-msdownload" /\
  includes (allowedMimeTypes cfg) "application/x-msdownload" = false /\
  fst (upload cfg sniff r empty_world) =
    Ok (Rejected 400 (MimeTypeMismatch (req_mimetype r) "application/x-msdownload")).
Proof.
  cbv zeta. split; [reflexivity|]. split; [reflexivity|].
  apply (unallowed_sniffed_type_rejected cfg sniff _ empty_world "application/x-msdownload");
    [reflexivity | reflexivity | reflexivity | vm_compute; discriminate
    | vm_compute; set_solver | reflexivity].
Defined.

(** C4 (confirmed).  When the bytes carry no recognised signature, an
    upload is stored only if its declared type is allow-listed, and the
    stored record carries the declared type; the content check lets such
    a file through unconditionally, so every upload that passes the
    filter, multer's size limit and the storage limit and whose record
    can be written is stored. *)
Theorem unknown_signature_uses_declared_type c sn rq w :
  sn (req_content rq) = None ->
  (forall r w', upload c sn rq w = (Ok (Created r), w') ->
     includes (allowedMimeTypes c) (req_mimetype rq) = true /\ mimeType r = req_mimetype rq) /\
  (fileFilter c (req_originalname rq) (req_mimetype rq) = None ->
   N.of_nat (String.length (req_content rq)) <= maxFileSizeBytes c ->
   generated_name rq ∉ locked w ->
   (maxStorageBytes c <? total_size (mem w) + N.of_nat (String.length (req_content rq))) = false ->
   meta_writable w = true ->
   exists r w', upload c sn rq w = (Ok (Created r), w') /\ mimeType r = req_mimetype rq).
Proof.
  intros Hsn. split.
  - intros r w'. rewrite upload_unfold.
    destruct (fileFilter c _ _) as [e|] eqn:Hf; [intros H; discriminate|].
    destruct (_ <? _); [intros H; discriminate|].
    destruct (checkStorageLimit c _ _) as [r1 w2] eqn:Hc.
    destruct (checkStorageLimit_outcomes _ _ _ _ _ Hc) as [->|[->| ->]];
      [|intros H; discriminate..].
    destruct (validateFileMimeType c sn _ _) as [[[resp2|]|f] w3] eqn:Hv.
    + intros H. injection H as -> _.
      pose proof (validateFileMimeType_outcomes _ _ _ _ _ _ Hv) as Ho. cbn in Ho.
      destruct r as [? ? ? ? ? ? ? ?]. exfalso. apply Ho.
    + rewrite addFile_outcome. destruct (meta_writable w3); [|discriminate].
      intros H. injection H as <- _.
      split; [exact (fileFilter_pass _ _ _ Hf) | reflexivity].
    + pose proof (validateFileMimeType_outcomes _ _ _ _ _ _ Hv). contradiction.
  - intros Hf Hsz Hl Hq Hw. rewrite upload_unfold, Hf, (size_gate_pass _ _ Hsz).
    rewrite (checkStorageLimit_spec c (multer_file_of rq) (written rq w) (req_content rq))
      by (exact Hl || apply written_lookup).
    cbn [mem written set_disk mf_size multer_file_of]. rewrite Hq.
    rewrite (validateFileMimeType_spec c sn (multer_file_of rq) (written rq w) (req_content rq))
      by (exact Hl || apply written_lookup).
    rewrite Hsn, addFile_outcome. cbn [meta_writable written set_disk]. rewrite Hw.
    eexists _, _. split; reflexivity.
Qed.

(** Witness of [unknown_signature_uses_declared_type] at a plain-text upload. *)
Lemma unknown_signature_uses_declared_type_witness :
  let r := req "notes.txt" "text/plain" "hello" "notes_1000_ab.txt" in
  sniff (req_content r) = None /\
  exists rec w', upload cfg sniff r empty_world = (Ok (Created rec), w') /\
                 mimeType rec = req_mimetype r.
Proof.
  cbv zeta. split; [reflexivity|].
  apply (unknown_signature_uses_declared_type cfg sniff _ empty_world);
    [reflexivity | reflexivity | vm_compute; discriminate | vm_compute; set_solver
    | reflexivity | reflexivity].
Defined.

(* ------------------------------------------------------------------ *)
(** ** Storage quota *)




(* ------------------------------------------------------------------ *)
(** ** Cleanup on the other rejection paths *)

(** Every rejection of the upload route other than a failed [addFile]
    removes the bytes multer wrote (when the file can be unlinked). *)
Lemma upload_rejection_removes_file c sn rq w resp w' :
  disk w !! generated_name rq = None ->
  generated_name rq ∉ locked w ->
  upload c sn rq w = (Ok resp, w') ->
  (forall f, resp <> Rejected 500 (ServerError f)) ->
  (forall r, resp <> Created r) ->
  disk w' !! generated_name rq = None.
Proof.
  intros Hfresh Hl Hrun Hnp Hnc. rewrite upload_unfold in Hrun.
  destruct (fileFilter c _ _) as [e|].
  { injection Hrun as _ <-. exact Hfresh. }
  destruct (maxFileSizeBytes c <? _).
  { injection Hrun as _ <-.
    rewrite (unlink_ok _ _ (substring 0 (N.to_nat (maxFileSizeBytes c)) (req_content rq)))
      by (exact Hl || apply lookup_insert_eq).
    apply lookup_delete_eq. }
  rewrite (checkStorageLimit_spec c (multer_file_of rq) (written rq w) (req_content rq))
    in Hrun by (exact Hl || apply written_lookup).
  destruct (_ <? _).
  { injection Hrun as _ <-. apply lookup_delete_eq. }
  rewrite (validateFileMimeType_spec c sn (multer_file_of rq) (written rq w) (req_content rq))
    in Hrun by (exact Hl || apply written_lookup).
  assert (Hcommit : forall w3,
    match addFile c (req_date rq) (req_now rq) (multer_file_of rq) w3 with
    | (Ok r, w4) => (Ok (Created r), w4)
    | (Err f, w4) => (Ok (Rejected 500 (ServerError f)), w4)
    end <> (Ok resp, w')).
  { intros w3. rewrite addFile_outcome. destruct (meta_writable w3);
      intros H; injection H as <- _; [eapply Hnc | eapply Hnp]; reflexivity. }
  destruct (sn (req_content rq)) as [d|]; [|exfalso; exact (Hcommit _ Hrun)].
  destruct (negb (String.eqb d _)).
  { injection Hrun as _ <-. apply lookup_delete_eq. }
  destruct (negb (includes _ d)).
  { injection Hrun as _ <-. apply lookup_delete_eq. }
  exfalso. exact (Hcommit _ Hrun).
Qed.

(* ------------------------------------------------------------------ *)
(** ** Concurrent mutations *)

(** C9 (code_bug).  Two concurrent [addFile] calls: the first mutates the
    map and starts its snapshot write, the second mutates the map while
    that write is in flight and starts its own write, whose result lands
    first.  Both calls resolve, yet files.json ends up holding the first
    snapshot, without the second record that memory holds. *)
Theorem concurrent_puts_lose_update :
  let s := Concurrent.run [0; 1; 1; 0]%nat two_puts in
  Concurrent.all_done s = true /\
  Concurrent.cmem s !! "b_1_bb.txt" = Some (rec_of "b_1_bb.txt" 1 10) /\
  Concurrent.csnap s !! "b_1_bb.txt" = None /\
  Concurrent.csnap s <> Concurrent.cmem s.
Proof.
  cbv zeta. split; [|split; [|split]].
  - vm_compute. reflexivity.
  - vm_compute. reflexivity.
  - vm_compute. reflexivity.
  - apply (bool_decide_eq_false_1 (_ = _)). vm_compute. reflexivity.
Qed.

(** The same two calls, run one after the other, persist both records. *)
Lemma sequential_puts_persist_all :
  let s := Concurrent.run [0; 0; 1; 1]%nat two_puts in
  Concurrent.all_done s = true /\ Concurrent.csnap s = Concurrent.cmem s.
Proof.
  cbv zeta. split.
  - vm_compute. reflexivity.
  - apply (bool_decide_eq_true_1 (_ = _)). vm_compute. reflexivity.
Qed.

(* ------------------------------------------------------------------ *)
(** ** The sweep *)

Lemma deleteFile_present i w r0 :
  mem w !! i = Some r0 ->
  deleteFile i w =
    let w2 := set_mem (delete i (mem w)) (emit (EvMetaDelete i) w) in
    if meta_writable w then (Ok (Some r0), emit EvPersist (set_snap (Some (mem w2)) w2))
    else (Err PersistFailed, failed_write w2).
Proof.
  intros Hr. unfold deleteFile.
  rewrite (bind_ok (getFile i) _ w (Some r0) w) by (unfold getFile, gets; rewrite Hr; reflexivity).
  unfold bind, modify, persist, ret. cbn [meta_writable set_mem emit].
  destruct (meta_writable w); reflexivity.
Qed.

Lemma expire_each_cons file rest n w r0 :
  mem w !! id file = Some r0 ->
  exists n1, expire_each (file :: rest) n w = expire_each rest n1 (after_expire file w).
Proof.
  intros Hr. cbn [expire_each].
  pose proof (unlink_frame (path file) w) as (Hm & Hw & _).
  assert (Hu : catch (unlink (path file)) (fun _ => ret tt) w = (Ok tt, snd (unlink (path file) w))).
  { unfold catch. destruct (unlink _ _) as [[[]|] w1]; reflexivity. }
  unfold after_expire. set (w1 := snd (unlink (path file) w)) in *.
  rewrite <- Hm in Hr.
  exists (if meta_writable w1 then n + 1 else n).
  erewrite bind_ok; [reflexivity|].
  unfold catch at 1. rewrite (bind_ok _ _ w tt w1 Hu).
  unfold bind at 1. rewrite (deleteFile_present _ _ _ Hr). cbv zeta.
  unfold persist. cbn [meta_writable set_mem emit].
  destruct (meta_writable w1); reflexivity.
Qed.

Lemma after_expire_frame file w :
  mem (after_expire file w) = delete (id file) (mem w) /\
  meta_writable (after_expire file w) = meta_writable w /\
  log (after_expire file w) =
    log w ++ [EvUnlink (path file); EvMetaDelete (id file)] ++
    (if meta_writable w then [EvPersist] else []).
Proof.
  pose proof (unlink_frame (path file) w) as (Hm & Hw & _ & Hl & _).
  unfold after_expire, persist. set (w1 := snd (unlink (path file) w)) in *.
  set (w2 := set_mem (delete (id file) (mem w1)) (emit (EvMetaDelete (id file)) w1)).
  assert (H2 : mem w2 = delete (id file) (mem w) /\ meta_writable w2 = meta_writable w /\
               log w2 = log w ++ [EvUnlink (path file); EvMetaDelete (id file)]).
  { unfold w2. cbn. rewrite Hm, Hw, Hl, <- app_assoc. auto. }
  destruct H2 as (H2m & H2w & H2l). rewrite H2w.
  destruct (meta_writable w); cbn [snd].
  - cbn [mem meta_writable log emit set_snap]. rewrite H2m, H2w, H2l, <- app_assoc. auto.
  - destruct (failed_write_frame w2) as (Fm & _ & Fw & _ & _ & Fl & _).
    rewrite Fm, Fw, Fl, H2m, H2w, H2l, app_nil_r. auto.
Qed.

Lemma expire_each_log l n w :
  NoDup (map id l) -> (forall r, In r l -> is_Some (mem w !! id r)) ->
  log (snd (expire_each l n w)) =
    log w ++ List.concat (map (fun r => [EvUnlink (path r); EvMetaDelete (id r)] ++
                                  (if meta_writable w then [EvPersist] else [])) l).
Proof.
  revert n w. induction l as [|file rest IH]; intros n w Hnd Hin.
  - cbn. rewrite app_nil_r. reflexivity.
  - destruct (Hin file (or_introl eq_refl)) as [r0 Hr0].
    destruct (expire_each_cons file rest n w r0 Hr0) as [n1 ->].
    cbn [map] in Hnd. apply NoDup_cons in Hnd as [Hnot Hnd].
    destruct (after_expire_frame file w) as (Hm & Hw & Hl).
    rewrite IH; [| exact Hnd |].
    + rewrite Hl, Hw. cbn [map List.concat]. rewrite <- !app_assoc. reflexivity.
    + intros r Hr. rewrite Hm. rewrite lookup_delete_ne.
      * apply Hin. right. exact Hr.
      * intros Heq. apply Hnot. rewrite Heq. apply list_elem_of_In. apply in_map. exact Hr.
Qed.

Lemma NoDup_map_filter {A B} (g : A -> B) (f : A -> bool) (l : list A) :
  NoDup (map g l) -> NoDup (map g (List.filter f l)).
Proof.
  induction l as [|a l IH]; cbn; [auto|].
  intros Hnd. apply NoDup_cons in Hnd as [Hnot Hnd].
  destruct (f a); cbn; [|auto].
  constructor; [|auto].
  intros Hin. apply Hnot. apply list_elem_of_In in Hin. apply list_elem_of_In.
  apply in_map_iff in Hin as (x & <- & Hx). apply filter_In in Hx as [Hx _].
  apply in_map. exact Hx.
Qed.

Lemma values_ids w :
  keys_are_ids (mem w) ->
  NoDup (map id (values w)) /\ (forall r, In r (values w) -> is_Some (mem w !! id r)).
Proof.
  intros Hk. unfold values.
  assert (Hf : forall kv, In kv (map_to_list (mem w)) -> mem w !! kv.1 = Some kv.2 /\ id kv.2 = kv.1).
  { intros [k r] Hin. apply list_elem_of_In, elem_of_map_to_list in Hin. split; [exact Hin|].
    exact (Hk _ _ Hin). }
  split.
  - pose proof (NoDup_fst_map_to_list (mem w)) as Hnd.
    assert (Heq : forall l : list (string * FileRecord),
              (forall kv, In kv l -> id kv.2 = kv.1) -> map id (map snd l) = l.*1).
    { induction l as [|[k r] l IH]; intros Hl; [reflexivity|].
      cbn. f_equal.
      - apply (Hl (k, r)). left. reflexivity.
      - apply IH. intros kv Hkv. apply Hl. right. exact Hkv. }
    rewrite Heq; [exact Hnd|]. intros kv Hkv. apply Hf. exact Hkv.
  - intros r Hr. apply in_map_iff in Hr as ([k r'] & <- & Hin).
    destruct (Hf _ Hin) as [Hl Hid]. cbn in *. rewrite Hid. eexists. exact Hl.
Qed.

(** C6 (confirmed).  In the expiry sweep, each expired record produces,
    in order, the unlink attempt of its file (whose failure, ENOENT
    included, is only logged), then the removal of its metadata record
    (then the snapshot write); no record is removed before the unlink of
    its own file has been attempted. *)
Theorem cleanupExpiredFiles_unlink_before_delete now w :
  keys_are_ids (mem w) ->
  log (snd (cleanupExpiredFiles now w)) =
    log w ++ List.concat (map (fun r => [EvUnlink (path r); EvMetaDelete (id r)] ++
                                       (if meta_writable w then [EvPersist] else []))
                             (List.filter (fun r => expiresAt r <=? now) (values w))).
Proof.
  intros Hk. unfold cleanupExpiredFiles.
  rewrite (bind_ok (getExpiredFiles now) _ w _ w) by reflexivity.
  destruct (values_ids w Hk) as [Hnd Hin].
  apply expire_each_log.
  - apply NoDup_map_filter. exact Hnd.
  - intros r Hr. apply filter_In in Hr as [Hr _]. apply Hin. exact Hr.
Qed.

Lemma catch_ret {A} (c : M A) (a : A) w :
  exists b w', catch c (fun _ => ret a) w = (Ok b, w').
Proof. unfold catch. destruct (c w) as [[b|f] w']; eauto. Qed.

Lemma expire_each_ok l n w : exists n' w', expire_each l n w = (Ok n', w').
Proof.
  revert n w. induction l as [|file rest IH]; intros n w; cbn [expire_each].
  - eexists _, _. reflexivity.
  - match goal with |- context [bind (catch ?c ?h) ?k w] =>
      destruct (catch_ret c n w) as (n1 & w1 & E) end.
    rewrite (bind_ok _ _ w n1 w1 E). apply IH.
Qed.

Lemma cleanupOrphanedFiles_ok w : exists n w', cleanupOrphanedFiles w = (Ok n, w').
Proof. apply catch_ret. Qed.

Lemma remove_ids_writable ids w : meta_writable (remove_ids ids w) = meta_writable w.
Proof.
  unfold remove_ids. revert w. induction ids as [|i ids IH]; intros w; [reflexivity|].
  cbn [fold_left]. rewrite IH. reflexivity.
Qed.

(** [cleanOrphanedMetadata] throws only when its snapshot write fails. *)
Lemma cleanOrphanedMetadata_err w e w' :
  cleanOrphanedMetadata w = (Err e, w') -> e = PersistFailed /\ meta_writable w = false.
Proof.
  unfold cleanOrphanedMetadata.
  erewrite bind_ok by reflexivity.
  erewrite bind_ok by reflexivity.
  set (ids := map id _). set (w1 := remove_ids ids w).
  destruct (0 <? List.length ids)%nat.
  - unfold bind, persist. pose proof (remove_ids_writable ids w) as Hw. fold w1 in Hw.
    destruct (meta_writable w1); [discriminate|]. intros H. injection H as <- _. auto.
  - discriminate.
Qed.

(** X: the phases of a sweep run.  The expired-file phase and the
    orphan-file phase never throw (their errors are caught and logged), so
    they never stop a run; the orphaned-metadata phase, whose wrapper
    [cleanupOrphanedMetadata] has no try/catch, throws only when its
    snapshot write fails, and then the orphan-file phase is not run and
    the run reports the failure instead of counts.  Otherwise all three
    phases run and their counts are reported. *)
Theorem runCleanup_phases now w :
  exists n1 w1,
    cleanupExpiredFiles now w = (Ok n1, w1) /\
    match cleanupOrphanedMetadata w1 with
    | (Ok n2, w2) =>
        exists n3 w3, cleanupOrphanedFiles w2 = (Ok n3, w3) /\
          runCleanup now w = (Ok (CleanupOk n1 n2 n3), w3)
    | (Err e, w2) =>
        e = PersistFailed /\ meta_writable w1 = false /\
        runCleanup now w = (Ok (CleanupFailed e), w2)
    end.
Proof.
  assert (H1 : exists n1 w1, cleanupExpiredFiles now w = (Ok n1, w1)).
  { unfold cleanupExpiredFiles. erewrite bind_ok by reflexivity. apply expire_each_ok. }
  destruct H1 as (n1 & w1 & H1). exists n1, w1. split; [exact H1|].
  unfold runCleanup, catch. rewrite (bind_ok _ _ w n1 w1 H1).
  destruct (cleanupOrphanedMetadata w1) as [[n2|e] w2] eqn:H2.
  - rewrite (bind_ok _ _ w1 n2 w2 H2).
    destruct (cleanupOrphanedFiles_ok w2) as (n3 & w3 & H3).
    exists n3, w3. split; [exact H3|].
    rewrite (bind_ok _ _ w2 n3 w3 H3). reflexivity.
  - rewrite (bind_err _ _ w1 e w2 H2).
    destruct (cleanOrphanedMetadata_err _ _ _ H2) as [-> Hw]. auto.
Qed.

Lemma includes_cons (l : list string) f g :
  includes (f :: l) g = (String.eqb g f || includes l g)%bool.
Proof. reflexivity. Qed.

Lemma includes_In (l : list string) g : includes l g = true <-> In g l.
Proof.
  unfold includes. rewrite existsb_exists. split.
  - intros (x & Hx & E). apply String.eqb_eq in E. subst. exact Hx.
  - intros Hg. exists g. split; [exact Hg | apply String.eqb_refl].
Qed.

Lemma remove_unknown_spec known l n w :
  NoDup l -> (forall f, In f l -> is_Some (disk w !! f)) ->
  fst (remove_unknown known l n w) =
    Ok (n + N.of_nat (List.length (List.filter (deletable known (locked w)) l))) /\
  locked (snd (remove_unknown known l n w)) = locked w /\
  forall g, disk (snd (remove_unknown known l n w)) !! g =
    if (includes l g && deletable known (locked w) g)%bool then None else disk w !! g.
Proof.
  revert n w. induction l as [|f l IH]; intros n w Hnd Hin.
  - cbn. rewrite N.add_0_r. auto.
  - apply NoDup_cons in Hnd as [Hnot Hnd].
    assert (Hfl : includes l f = false).
    { destruct (includes l f) eqn:E; [|reflexivity].
      apply includes_In in E. exfalso. apply Hnot. apply list_elem_of_In. exact E. }
    assert (Hin' : forall g, In g l -> is_Some (disk w !! g)).
    { intros g Hg. apply Hin. right. exact Hg. }
    (* the case where [f] is kept and the world is only logged *)
    assert (Hkeep : forall n0 w0,
      deletable known (locked w) f = false ->
      locked w0 = locked w -> disk w0 = disk w ->
      n0 = n ->
      fst (remove_unknown known l n0 w0) =
        Ok (n + N.of_nat (List.length (List.filter (deletable known (locked w)) (f :: l)))) /\
      locked (snd (remove_unknown known l n0 w0)) = locked w /\
      forall g, disk (snd (remove_unknown known l n0 w0)) !! g =
        if (includes (f :: l) g && deletable known (locked w) g)%bool then None else disk w !! g).
    { intros n0 w0 Hdel Hl0 Hd0 ->.
      destruct (IH n w0 Hnd) as (Hc & Hl & Hd); [rewrite Hd0; exact Hin'|].
      rewrite Hl0 in Hc, Hd. cbn [List.filter]. rewrite Hdel.
      split; [exact Hc|]. split; [rewrite Hl; exact Hl0|].
      intros g. rewrite Hd, Hd0, includes_cons.
      destruct (String.eqb g f) eqn:E; [|reflexivity].
      apply String.eqb_eq in E. subst g. rewrite Hfl, Hdel. reflexivity. }
    cbn [remove_unknown].
    destruct (skipped f) eqn:Hs.
    { apply Hkeep; try reflexivity. unfold deletable. rewrite Hs. reflexivity. }
    destruct (negb (includes known f)) eqn:Hk.
    2:{ apply Hkeep; try reflexivity. unfold deletable. rewrite Hs, Hk. reflexivity. }
    destruct (decide (f ∈ locked w)) as [Hlk|Hlk].
    + assert (E : catch (let* _ := unlink f in ret (n + 1)) (fun _ => ret n) w =
                  (Ok n, emit (EvUnlink f) w)).
      { unfold catch, bind at 1, unlink, bind, modify. cbn [locked emit].
        rewrite decide_True by exact Hlk. reflexivity. }
      rewrite (bind_ok _ _ w n _ E).
      apply Hkeep; try reflexivity.
      unfold deletable. rewrite Hs, Hk, bool_decide_true by exact Hlk.
      apply andb_false_r.
    + destruct (Hin f (or_introl eq_refl)) as [b Hb].
      assert (E : catch (let* _ := unlink f in ret (n + 1)) (fun _ => ret n) w =
                  (Ok (n + 1), unlinked f w)).
      { unfold catch. rewrite (bind_ok _ _ w tt (unlinked f w)) by (eapply unlink_ok; eauto).
        reflexivity. }
      rewrite (bind_ok _ _ w (n + 1) _ E).
      assert (Hdel : deletable known (locked w) f = true).
      { unfold deletable. rewrite Hs, Hk, bool_decide_false by exact Hlk. reflexivity. }
      destruct (IH (n + 1) (unlinked f w) Hnd) as (Hc & Hl & Hd).
      { intros g Hg. cbn. rewrite lookup_delete_ne; [exact (Hin' g Hg)|].
        intros ->. apply Hnot. apply list_elem_of_In. exact Hg. }
      cbn [locked unlinked set_disk emit] in Hc, Hl, Hd.
      cbn [List.filter]. rewrite Hdel. cbn [List.length].
      split; [rewrite Hc; f_equal; lia|]. split; [exact Hl|].
      intros g. rewrite Hd, includes_cons.
      destruct (String.eqb g f) eqn:E'.
      * apply String.eqb_eq in E'. subst g. rewrite Hfl, Hdel. cbn. apply lookup_delete_eq.
      * cbn [orb]. destruct (_ && _)%bool; [reflexivity|].
        apply lookup_delete_ne. intros ->. rewrite String.eqb_refl in E'. discriminate.
Qed.

(** C8 (corrected), amended: the orphan-file phase deletes exactly the
    directory entries that are not skipped (".gitkeep" and names starting
    with "."), have no record with that file name and can be unlinked;
    every other file is kept, and the count it returns is the number of
    files it deleted. *)
Theorem cleanupOrphanedFiles_deletes_unhidden_orphans w :
  let known := map filename (values w) in
  fst (cleanupOrphanedFiles w) =
    Ok (N.of_nat (List.length (List.filter (deletable known (locked w)) (elements (dom (disk w)))))) /\
  forall f, disk (snd (cleanupOrphanedFiles w)) !! f =
    if deletable known (locked w) f then None else disk w !! f.
Proof.
  cbv zeta. unfold cleanupOrphanedFiles, catch, readdir, getAllFiles, gets.
  rewrite (bind_ok _ _ w (elements (dom (disk w))) w) by reflexivity.
  rewrite (bind_ok _ _ w (values w) w) by reflexivity.
  set (l := elements (dom (disk w))).
  assert (Hl : forall f, In f l <-> is_Some (disk w !! f)).
  { intros f. unfold l. rewrite <- list_elem_of_In, elem_of_elements, elem_of_dom. reflexivity. }
  destruct (remove_unknown_spec (map filename (values w)) l 0 w) as (Hc & _ & Hd).
  { apply NoDup_elements. }
  { intros f. apply Hl. }
  destruct (remove_unknown _ l 0 w) as [r w'] eqn:E. cbn in Hc, Hd. subst r.
  split; [f_equal; lia|].
  intros f. rewrite Hd.
  destruct (includes l f) eqn:Hi; [reflexivity|].
  destruct (deletable _ _ f); [|reflexivity].
  destruct (disk w !! f) eqn:Hf; [|reflexivity].
  exfalso. assert (In f l) as Hf' by (apply Hl; eauto).
  apply includes_In in Hf'. congruence.
Qed.

(** Witness of [cleanupExpiredFiles_unlink_before_delete]: two expired
    records, the file of the second already gone. *)
Lemma cleanupExpiredFiles_unlink_before_delete_witness :
  keys_are_ids (mem expired_world) /\
  log (snd (cleanupExpiredFiles 100 expired_world)) =
    [EvUnlink "a_1_aa.txt"; EvMetaDelete "a_1_aa.txt"; EvPersist;
     EvUnlink "b_1_bb.txt"; EvMetaDelete "b_1_bb.txt"; EvPersist].
Proof.
  assert (Hk : keys_are_ids (mem expired_world)).
  { apply (bool_decide_eq_true_1 _). vm_compute. reflexivity. }
  split; [exact Hk|].
  rewrite (cleanupExpiredFiles_unlink_before_delete 100 expired_world Hk).
  vm_compute. reflexivity.
Defined.

(** C7 (code_bug).  A failure in one phase of a sweep run does not stop
    the others: that fails for a live record whose file is gone, an extra
    file without a record, and a metadata file that cannot be written.
    The orphaned-metadata phase throws (its wrapper, unlike the other two
    phases', catches nothing), the run reports failure without counts,
    and the orphan-file phase never runs: the extra file is still there,
    although that phase would delete it. *)
Lemma orphan_metadata_failure_skips_file_phase :
  fst (runCleanup 0 sweep_world) = Ok (CleanupFailed PersistFailed) /\
  disk (snd (runCleanup 0 sweep_world)) !! "orphan.bin" = Some "junk" /\
  fst (cleanupOrphanedFiles (snd (runCleanup 0 sweep_world))) = Ok 1.
Proof. split; [|split]; vm_compute; reflexivity. Qed.

(** C8 (corrected), counterexample: a hidden file without a record is
    not deleted and not counted. *)
Lemma hidden_orphan_file_kept :
  mem hidden_orphan_world = ∅ /\
  fst (cleanupOrphanedFiles hidden_orphan_world) = Ok 0 /\
  disk (snd (cleanupOrphanedFiles hidden_orphan_world)) !! ".orphan" = Some "junk".
Proof. split; [|split]; vm_compute; reflexivity. Qed.

End Props.

(* ------------------------------------------------------------------ *)
(** * Further properties: the other routes, the store, reloading, the
    sweep, file ids and generated names, the service and the error
    handler *)

Module More.
Import Store Lifecycle Upload Sample Props.

Lemma keeps_refl p w : keeps p w w.
Proof. repeat split; auto. Qed.

Lemma keeps_trans p w1 w2 w3 : keeps p w1 w2 -> keeps p w2 w3 -> keeps p w1 w3.
Proof.
  intros (H1 & H2 & H3 & H4 & H5) (G1 & G2 & G3 & G4 & G5).
  repeat split; try congruence. intros q Hq. rewrite G5, H5; auto.
Qed.

Lemma unlink_keeps p w : keeps p w (snd (unlink p w)).
Proof.
  pose proof (unlink_frame p w) as (Hm & Hw & Hl & _ & Hd & _).
  repeat split; auto.
  unfold unlink, bind, modify. cbn.
  destruct (decide _); [reflexivity|]. destruct (_ !! _); reflexivity.
Qed.

Lemma checkStorageLimit_keeps c file w : keeps (mf_path file) w (snd (checkStorageLimit c file w)).
Proof.
  unfold checkStorageLimit, catch, getTotalStorageUsed, gets.
  rewrite (bind_ok _ _ w (total_size (mem w)) w) by reflexivity.
  destruct (_ <? _); [|apply keeps_refl].
  pose proof (unlink_keeps (mf_path file) w) as K.
  unfold bind. destruct (unlink _ _) as [[[]|f] w1]; exact K.
Qed.

Lemma catch_unlink_keeps p (h : Fault -> M unit) w :
  (forall f w0, snd (h f w0) = w0) -> keeps p w (snd (catch (unlink p) h w)).
Proof.
  intros Hh. pose proof (unlink_keeps p w) as K. unfold catch.
  destruct (unlink p w) as [[[]|f] w1]; cbn in *; [exact K|]. rewrite Hh. exact K.
Qed.

Lemma validateFileMimeType_keeps c sn file w :
  keeps (mf_path file) w (snd (validateFileMimeType c sn file w)).
Proof.
  unfold validateFileMimeType.
  set (p := mf_path file).
  set (handler := fun _ : Fault =>
         let* _ := catch (unlink p) (fun _ => ret tt) in
         ret (Some (Rejected 500 TypeValidationFailed))).
  assert (Hh : forall f w0, keeps p w0 (snd (handler f w0))).
  { intros f w0. unfold handler, bind at 1.
    pose proof (catch_unlink_keeps p (fun _ => ret tt) w0 (fun _ _ => eq_refl)) as K.
    destruct (catch (unlink p) _ w0) as [[[]|f'] w1]; exact K. }
  unfold catch at 1, readFile, bind at 1.
  destruct (disk w !! p) as [b|]; [|apply Hh].
  destruct (sn b) as [d|]; [|apply keeps_refl].
  assert (Hu : forall a : option Response, keeps p w
     (snd (match (let* _ := unlink p in ret a) w with
           | (Ok a0, w') => (Ok a0, w')
           | (Err f, w') => handler f w'
           end))).
  { intros a. pose proof (unlink_keeps p w) as K. unfold bind.
    destruct (unlink p w) as [[[]|f] w1]; cbn in *; [exact K|].
    eapply keeps_trans; [exact K|]. apply Hh. }
  destruct (negb _); [apply Hu|].
  destruct (negb _); [apply Hu|]. apply keeps_refl.
Qed.

Lemma total_size_insert k r m :
  total_size (<[k := r]> m) = total_size (delete k m) + size r.
Proof.
  unfold total_size. rewrite <- insert_delete_eq.
  rewrite map_fold_insert_L; [reflexivity| |apply lookup_delete_eq].
  intros. lia.
Qed.

Lemma total_size_delete k r m :
  m !! k = Some r -> total_size m = total_size (delete k m) + size r.
Proof.
  intros Hk. unfold total_size.
  rewrite (map_fold_delete_L _ _ k r m); [reflexivity| |exact Hk].
  intros. lia.
Qed.

Lemma total_size_delete_le k m : total_size (delete k m) <= total_size m.
Proof.
  destruct (m !! k) as [r|] eqn:Hk.
  - rewrite (total_size_delete k r m Hk). lia.
  - rewrite delete_id by exact Hk. lia.
Qed.

Lemma total_size_insert_le k r m : total_size (<[k := r]> m) <= total_size m + size r.
Proof. rewrite total_size_insert. pose proof (total_size_delete_le k m). lia. Qed.

(** The world after an [addFile], whatever its outcome. *)
Lemma addFile_world c date now fd w :
  let r := make_record c date now fd in
  mem (snd (addFile c date now fd w)) = <[mf_filename fd := r]> (mem w) /\
  disk (snd (addFile c date now fd w)) = disk w /\
  locked (snd (addFile c date now fd w)) = locked w /\
  meta_writable (snd (addFile c date now fd w)) = meta_writable w /\
  snap (snd (addFile c date now fd w)) =
    (if meta_writable w then Some (<[mf_filename fd := r]> (mem w)) else failed_snap w) /\
  meta_truncates (snd (addFile c date now fd w)) = meta_truncates w.
Proof.
  rewrite addFile_outcome. destruct (meta_writable w) eqn:E; cbn.
  - rewrite ?E. repeat split; reflexivity.
  - destruct (failed_write_frame (set_mem (<[mf_filename fd := make_record c date now fd]> (mem w)) w))
      as (Fm & Fd & Fw & Ft & Fl & _ & Fs).
    rewrite Fm, Fd, Fw, Ft, Fl, Fs. cbn. rewrite E. repeat split; reflexivity.
Qed.

Lemma written_prefix_keeps c rq w : keeps (generated_name rq) w (written_prefix c rq w).
Proof. repeat split; auto. intros q Hq. apply lookup_insert_ne. congruence. Qed.

Lemma written_keeps_other rq w q :
  q <> generated_name rq -> disk (written rq w) !! q = disk w !! q.
Proof. intros Hq. apply lookup_insert_ne. congruence. Qed.

(** The world after the upload route, whatever its answer: nothing but
    the file and the record named [generated_name] has changed. *)
Lemma upload_world c sn rq w :
  let w' := snd (upload c sn rq w) in
  locked w' = locked w /\
  meta_writable w' = meta_writable w /\
  (forall q, q <> generated_name rq -> disk w' !! q = disk w !! q) /\
  (mem w' = mem w \/ mem w' = <[generated_name rq := make_record c (req_date rq) (req_now rq) (multer_file_of rq)]> (mem w)).
Proof.
  cbv zeta. rewrite upload_unfold.
  destruct (fileFilter c _ _) as [e|]; [cbn; auto|].
  destruct (maxFileSizeBytes c <? _).
  { pose proof (keeps_trans _ _ _ _ (written_prefix_keeps c rq w)
                  (unlink_keeps (generated_name rq) (written_prefix c rq w))) as (Hm & _ & Hw & Hl & Hd).
    cbn [snd]. auto. }
  pose proof (checkStorageLimit_keeps c (multer_file_of rq) (written rq w)) as K2.
  destruct (checkStorageLimit c _ _) as [r1 w2] eqn:E2. cbn [snd] in K2.
  change (mf_path (multer_file_of rq)) with (generated_name rq) in K2.
  assert (K1 : keeps (generated_name rq) w (written rq w)).
  { repeat split; auto. apply written_keeps_other. }
  pose proof (keeps_trans _ _ _ _ K1 K2) as K12.
  destruct r1 as [[resp|]|f].
  3: { destruct K12 as (Hm & _ & Hw & Hl & Hd). cbn. auto. }
  1: { destruct K12 as (Hm & _ & Hw & Hl & Hd). cbn. auto. }
  pose proof (validateFileMimeType_keeps c sn (multer_file_of rq) w2) as K3.
  destruct (validateFileMimeType c sn _ _) as [r2 w3] eqn:E3. cbn [snd] in K3.
  change (mf_path (multer_file_of rq)) with (generated_name rq) in K3.
  pose proof (keeps_trans _ _ _ _ K12 K3) as (Hm & _ & Hw & Hl & Hd).
  destruct r2 as [[resp|]|f]; [cbn; auto| |cbn; auto].
  pose proof (addFile_world c (req_date rq) (req_now rq) (multer_file_of rq) w3) as (Am & Ad & Al & Aw & _).
  destruct (addFile c _ _ _ w3) as [[r|f] w4]; cbn [snd] in *;
    (split; [congruence|]); (split; [congruence|]);
    (split; [intros q Hq; rewrite Ad; auto|]); right; rewrite Am, Hm; reflexivity.
Qed.

(** [upload_world]'s second disjunct: the record is there only after the
    storage check passed. *)
Lemma upload_mem_quota c sn rq w :
  mem (snd (upload c sn rq w)) = mem w \/
  (mem (snd (upload c sn rq w)) =
     <[generated_name rq := make_record c (req_date rq) (req_now rq) (multer_file_of rq)]> (mem w) /\
   (maxStorageBytes c <? total_size (mem w) + N.of_nat (String.length (req_content rq))) = false).
Proof.
  rewrite upload_unfold.
  destruct (fileFilter c _ _) as [e|]; [cbn; auto|].
  destruct (maxFileSizeBytes c <? _).
  { left. apply (keeps_trans _ _ _ _ (written_prefix_keeps c rq w)
                   (unlink_keeps (generated_name rq) (written_prefix c rq w))). }
  pose proof (checkStorageLimit_keeps c (multer_file_of rq) (written rq w)) as K2.
  destruct (checkStorageLimit c _ _) as [r1 w2] eqn:E2. cbn [snd] in K2.
  destruct r1 as [[resp|]|f]; [left; apply K2| |left; apply K2].
  destruct (checkStorageLimit_next _ _ _ _ E2) as [-> Hq].
  pose proof (validateFileMimeType_keeps c sn (multer_file_of rq) (written rq w)) as (Hm & _).
  destruct (validateFileMimeType c sn _ _) as [r2 w3] eqn:E3. cbn [snd] in Hm.
  destruct r2 as [[resp|]|f]; [left; exact Hm| |left; exact Hm].
  pose proof (addFile_world c (req_date rq) (req_now rq) (multer_file_of rq) w3) as (Am & _).
  right. split; [|exact Hq].
  destruct (addFile c _ _ _ w3) as [[r|f] w4]; cbn [snd] in *; rewrite Am, Hm; reflexivity.
Qed.

(** X: the upload route keeps the total size of the stored records
    within [config.maxStorageBytes]. *)
Theorem upload_keeps_storage_within_quota c sn rq w :
  total_size (mem w) <= maxStorageBytes c ->
  total_size (mem (snd (upload c sn rq w))) <= maxStorageBytes c.
Proof.
  intros Hw. destruct (upload_mem_quota c sn rq w) as [-> | [-> Hq]]; [exact Hw|].
  apply N.ltb_ge in Hq. etransitivity; [apply total_size_insert_le|]. exact Hq.
Qed.


(** A 201 answer: the bytes are on disk, the record is in memory and in
    files.json. *)
Lemma upload_created c sn rq w r w' :
  upload c sn rq w = (Ok (Created r), w') ->
  r = make_record c (req_date rq) (req_now rq) (multer_file_of rq) /\
  disk w' !! generated_name rq = Some (req_content rq) /\
  mem w' !! generated_name rq = Some r /\
  snap w' = Some (mem w') /\
  meta_writable w' = true.
Proof.
  rewrite upload_unfold.
  destruct (fileFilter c _ _) as [e|]; [discriminate|].
  destruct (maxFileSizeBytes c <? _); [discriminate|].
  destruct (checkStorageLimit c _ _) as [r1 w2] eqn:E2.
  destruct r1 as [[resp|]|f]; [| |discriminate].
  { destruct (checkStorageLimit_outcomes _ _ _ _ _ E2) as [H|[H|H]]; intros Hr;
      injection Hr as Hr _; subst resp; discriminate. }
  destruct (checkStorageLimit_next _ _ _ _ E2) as [-> _].
  destruct (validateFileMimeType c sn _ _) as [r2 w3] eqn:E3.
  pose proof (validateFileMimeType_outcomes _ _ _ _ _ _ E3) as Ho.
  destruct r2 as [[resp|]|f]; [| |contradiction].
  { intros Hr. injection Hr as Hr _. subst resp. exact (False_ind _ Ho). }
  destruct Ho as [-> _].
  rewrite addFile_outcome. destruct (meta_writable (written rq w)) eqn:Hw; [|discriminate].
  intros Hr. injection Hr as <- <-. cbn.
  split; [reflexivity|]. split; [apply lookup_insert_eq|].
  split; [apply lookup_insert_eq|]. split; [reflexivity|]. exact Hw.
Qed.

(** X: a 201 answer of the upload route means that the uploaded bytes are
    in the upload directory under the generated name, that the record
    built from the request is stored under that name in memory, and that
    files.json holds the whole in-memory map. *)
Theorem upload_created_is_stored c sn rq w r w' :
  upload c sn rq w = (Ok (Created r), w') ->
  r = make_record c (req_date rq) (req_now rq) (multer_file_of rq) /\
  disk w' !! generated_name rq = Some (req_content rq) /\
  mem w' !! generated_name rq = Some r /\
  snap w' = Some (mem w').
Proof.
  intros H. destruct (upload_created c sn rq w r w' H) as (? & ? & ? & ? & _). auto.
Qed.

(** The delete route on an existing record. *)
Lemma deleteFileRoute_spec raw i r w :
  validateFileId raw = Some i ->
  mem w !! i = Some r ->
  let w' := snd (Routes.deleteFileRoute raw w) in
  if decide (path r ∈ locked w) then
    fst (Routes.deleteFileRoute raw w) = Ok (Routes.NextError EPERM) /\
    disk w' = disk w /\ mem w' = mem w /\ snap w' = snap w
  else
    fst (Routes.deleteFileRoute raw w) =
      Ok (if meta_writable w then Routes.FileDeleted (id r) (originalName r)
          else Routes.NextError PersistFailed) /\
    disk w' = delete (path r) (disk w) /\ mem w' = delete i (mem w) /\
    snap w' = (if meta_writable w then Some (mem w') else failed_snap w).
Proof.
  intros Hv Hr. cbv zeta.
  destruct (Routes.deleteFileRoute raw w) as [res w'] eqn:HD. cbn [fst snd].
  unfold Routes.deleteFileRoute in HD. rewrite Hv in HD. unfold catch at 1 in HD.
  rewrite (bind_ok (getFile i) _ w (Some r) w) in HD
    by (unfold getFile, gets; rewrite Hr; reflexivity).
  destruct (decide (path r ∈ locked w)) as [Hl|Hl].
  - assert (E : catch (unlink (path r))
                  (fun error => match error with ENOENT => ret tt | _ => throw error end) w =
                (Err EPERM, emit (EvUnlink (path r)) w)).
    { unfold catch, unlink, bind, modify. cbn [locked disk emit].
      rewrite decide_True by exact Hl. reflexivity. }
    rewrite (bind_err _ _ w EPERM _ E) in HD. injection HD as <- <-. cbn. auto.
  - set (h := fun error => match error with ENOENT => ret tt | _ => throw error end) in HD.
    assert (E : exists w1, catch (unlink (path r)) h w = (Ok tt, w1) /\
                  mem w1 = mem w /\ snap w1 = snap w /\ meta_writable w1 = meta_writable w /\
                  meta_truncates w1 = meta_truncates w /\ disk w1 = delete (path r) (disk w)).
    { unfold catch, unlink, bind, modify. cbn [locked disk emit].
      rewrite decide_False by exact Hl.
      destruct (disk w !! path r) eqn:Hd; cbn.
      - eexists. split; [reflexivity|]. cbn. auto.
      - eexists. split; [reflexivity|]. cbn. repeat split; auto.
        rewrite delete_id by exact Hd. reflexivity. }
    destruct E as (w1 & E & Hm & Hs & Hw & Ht & Hd).
    rewrite (bind_ok _ _ w tt w1 E) in HD.
    rewrite <- Hm in Hr. unfold bind at 1 in HD. rewrite (deleteFile_present _ _ _ Hr) in HD.
    cbv zeta in HD. cbn [meta_writable set_mem emit] in HD. rewrite Hw in HD.
    unfold failed_snap. unfold failed_write in HD.
    destruct (meta_writable w); cbn in HD.
    + injection HD as <- <-. cbn. rewrite ?Hm, ?Hs, ?Hd. auto.
    + rewrite Ht in HD. destruct (meta_truncates w); cbn in HD; injection HD as <- <-; cbn;
        rewrite ?Hm, ?Hs, ?Hd, ?Ht; auto.
Qed.

(** X: DELETE /files/:fileId on an existing record: if the file cannot
    be unlinked (EPERM) the error goes to the error handler and nothing
    is removed; otherwise the file is removed (a file already gone is
    not an error) and the record is removed from memory; the answer is
    200 and files.json holds the new map when the snapshot write
    succeeds, and the write error goes to the error handler when it
    fails, files.json being as the failed write left it. *)
Theorem deleteFileRoute_outcomes raw i r w :
  validateFileId raw = Some i ->
  mem w !! i = Some r ->
  let w' := snd (Routes.deleteFileRoute raw w) in
  if decide (path r ∈ locked w) then
    fst (Routes.deleteFileRoute raw w) = Ok (Routes.NextError EPERM) /\
    disk w' = disk w /\ mem w' = mem w /\ snap w' = snap w
  else
    fst (Routes.deleteFileRoute raw w) =
      Ok (if meta_writable w then Routes.FileDeleted (id r) (originalName r)
          else Routes.NextError PersistFailed) /\
    disk w' = delete (path r) (disk w) /\ mem w' = delete i (mem w) /\
    snap w' = (if meta_writable w then Some (mem w') else failed_snap w).
Proof. apply deleteFileRoute_spec. Qed.

(** X: an upload answered with 201, followed by DELETE of its file id:
    the delete answers 200, and afterwards neither the file nor the
    record exists, files.json holds the in-memory map, and every other
    file and record is as before the upload. *)
Theorem upload_then_delete c sn rq w r w1 q k :
  upload c sn rq w = (Ok (Created r), w1) ->
  validateFileId (generated_name rq) = Some (generated_name rq) ->
  generated_name rq ∉ locked w ->
  q <> generated_name rq -> k <> generated_name rq ->
  let w2 := snd (Routes.deleteFileRoute (generated_name rq) w1) in
  fst (Routes.deleteFileRoute (generated_name rq) w1) =
    Ok (Routes.FileDeleted (generated_name rq) (req_originalname rq)) /\
  disk w2 !! generated_name rq = None /\
  mem w2 !! generated_name rq = None /\
  snap w2 = Some (mem w2) /\
  disk w2 !! q = disk w !! q /\
  mem w2 !! k = mem w !! k.
Proof.
  intros Hu Hv Hl Hq Hk. cbv zeta.
  destruct (upload_created _ _ _ _ _ _ Hu) as (-> & Hd & Hm & Hs & Hw).
  pose proof (upload_world c sn rq w) as (Hlk & _ & Hdq & Hmk).
  rewrite Hu in Hlk, Hdq, Hmk. cbn [snd] in Hlk, Hdq, Hmk.
  pose proof (deleteFileRoute_spec _ _ _ w1 Hv Hm) as D. cbv zeta in D.
  cbn [path make_record mf_path multer_file_of] in D.
  rewrite decide_False in D by (rewrite Hlk; exact Hl).
  rewrite Hw in D. destruct D as (Dr & Dd & Dm & Ds).
  rewrite Dr, Dd, Ds, Dm. cbn.
  split; [reflexivity|]. split; [apply lookup_delete_eq|].
  split; [apply lookup_delete_eq|]. split; [reflexivity|].
  split.
  - rewrite lookup_delete_ne by congruence. apply Hdq. exact Hq.
  - rewrite lookup_delete_ne by congruence.
    destruct Hmk as [-> | ->]; [reflexivity|]. apply lookup_insert_ne. congruence.
Qed.

(** X: downloading a file right after its upload was answered with 201
    streams exactly the uploaded bytes, with the declared MIME type as
    Content-Type, the original name in Content-Disposition and the byte
    count as Content-Length, and changes nothing. *)
Theorem upload_then_download c sn rq w r w1 :
  upload c sn rq w = (Ok (Created r), w1) ->
  validateFileId (generated_name rq) = Some (generated_name rq) ->
  Routes.downloadFile (generated_name rq) w1 =
    (Ok (Routes.FileDownload (req_mimetype rq)
           ("attachment; filename=" ++ Routes.quote ++ req_originalname rq ++ Routes.quote)
           (N.of_nat (String.length (req_content rq))) (req_content rq)), w1).
Proof.
  intros Hu Hv.
  destruct (upload_created _ _ _ _ _ _ Hu) as (-> & Hd & Hm & _ & _).
  unfold Routes.downloadFile. rewrite Hv. unfold catch.
  rewrite (bind_ok (getFile _) _ w1 _ w1) by (unfold getFile, gets; rewrite Hm; reflexivity).
  cbv beta iota.
  rewrite (bind_ok (gets _) _ w1 true w1).
  2:{ unfold gets, exists_on_disk. cbn [path make_record mf_path multer_file_of].
      rewrite Hd. reflexivity. }
  cbv beta iota.
  rewrite (bind_ok (readFile _) _ w1 (req_content rq) w1).
  2:{ unfold readFile. cbn [path make_record mf_path multer_file_of]. rewrite Hd. reflexivity. }
  reflexivity.
Qed.

(** X: GET /files/:fileId never changes the upload directory.  It
    answers 404 for an unknown id and 200 with the record when the record
    and its file both exist, changing nothing; for a record whose file is
    gone it removes the record from memory and answers 404 "File not
    found on disk" if the snapshot write succeeds, the write error
    otherwise. *)
Theorem getFileInfo_outcomes raw i w :
  validateFileId raw = Some i ->
  disk (snd (Routes.getFileInfo raw w)) = disk w /\
  match mem w !! i with
  | None => Routes.getFileInfo raw w = (Ok Routes.FileNotFound, w)
  | Some r =>
      if exists_on_disk (path r) w then Routes.getFileInfo raw w = (Ok (Routes.FileInfo r), w)
      else
        fst (Routes.getFileInfo raw w) =
          Ok (if meta_writable w then Routes.FileNotFoundOnDisk else Routes.NextError PersistFailed) /\
        mem (snd (Routes.getFileInfo raw w)) = delete i (mem w)
  end.
Proof.
  intros Hv. unfold Routes.getFileInfo. rewrite Hv. unfold catch.
  destruct (mem w !! i) as [r|] eqn:Hr.
  2:{ rewrite (bind_ok (getFile i) _ w None w) by (unfold getFile, gets; rewrite Hr; reflexivity).
      auto. }
  rewrite (bind_ok (getFile i) _ w (Some r) w) by (unfold getFile, gets; rewrite Hr; reflexivity).
  cbv beta iota.
  rewrite (bind_ok (gets _) _ w (exists_on_disk (path r) w) w) by reflexivity.
  cbv beta iota.
  destruct (exists_on_disk (path r) w); [auto|].
  pose proof (deleteFile_present _ _ _ Hr) as HdF. cbv zeta in HdF.
  destruct (meta_writable w) eqn:Hw.
  - rewrite (bind_ok (deleteFile i) _ w (Some r) _ HdF). cbn. auto.
  - rewrite (bind_err (deleteFile i) _ w PersistFailed _ HdF). cbn [fst snd].
    destruct (failed_write_frame (set_mem (delete i (mem w)) (emit (EvMetaDelete i) w)))
      as (Fm & Fd & _). unfold ret. cbn [fst snd]. rewrite Fm, Fd. cbn. auto.
Qed.


(** X: [addFile] of a fresh id adds the file's size to the storage used,
    and a following [deleteFile] of that id gives back the store as it
    was in memory, whatever the outcome of the writes; files.json then
    holds that store when the writes succeed, and is as the failed writes
    left it when they fail. *)
Theorem addFile_then_deleteFile c date now fd w :
  mem w !! mf_filename fd = None ->
  let w1 := snd (addFile c date now fd w) in
  let w2 := snd (deleteFile (mf_filename fd) w1) in
  total_size (mem w1) = total_size (mem w) + mf_size fd /\
  mem w2 = mem w /\
  snap w2 = (if meta_writable w then Some (mem w) else failed_snap w).
Proof.
  intros Hn. cbv zeta.
  pose proof (addFile_world c date now fd w) as (Am & _ & _ & Aw & As & At). cbv zeta in Am, As.
  set (w1 := snd (addFile c date now fd w)) in *.
  assert (Hr : mem w1 !! mf_filename fd = Some (make_record c date now fd)).
  { rewrite Am. apply lookup_insert_eq. }
  rewrite (deleteFile_present _ _ _ Hr). cbv zeta.
  assert (Hdel : delete (mf_filename fd) (mem w1) = mem w).
  { rewrite Am, delete_insert_eq. apply delete_id. exact Hn. }
  split.
  - rewrite Am, total_size_insert, delete_id by exact Hn. reflexivity.
  - rewrite Aw. destruct (meta_writable w) eqn:Hw; cbn [snd].
    + cbn. rewrite Hdel. auto.
    + destruct (failed_write_frame (set_mem (delete (mf_filename fd) (mem w1))
                                       (emit (EvMetaDelete (mf_filename fd)) w1)))
        as (Fm & _ & _ & _ & _ & _ & Fs).
      rewrite Fm, Fs. cbn. rewrite Hdel. split; [reflexivity|].
      unfold failed_snap in *. cbn. rewrite At, As. destruct (meta_truncates w); reflexivity.
Qed.

(** X: the record [addFile] stores, having read [Date.now()] as [now], is
    among the records [getExpiredFiles] returns at time [t] exactly when
    [now + fileRetentionMs <= t]. *)
Theorem added_record_expires c date now fd w t :
  (exists l, fst (getExpiredFiles t (snd (addFile c date now fd w))) = Ok l /\
             In (make_record c date now fd) l) <->
  now + fileRetentionMs c <= t.
Proof.
  pose proof (addFile_world c date now fd w) as (Am & _). cbv zeta in Am.
  unfold getExpiredFiles, gets. cbn [fst].
  set (w1 := snd (addFile c date now fd w)) in *.
  assert (Hin : In (make_record c date now fd) (values w1)).
  { unfold values. apply in_map_iff. exists (mf_filename fd, make_record c date now fd).
    split; [reflexivity|]. apply list_elem_of_In, elem_of_map_to_list.
    rewrite Am. apply lookup_insert_eq. }
  split.
  - intros (l & Hl & Hr). injection Hl as <-. apply filter_In in Hr as [_ Hr].
    apply N.leb_le in Hr. exact Hr.
  - intros Ht. eexists. split; [reflexivity|]. apply filter_In. split; [exact Hin|].
    apply N.leb_le. exact Ht.
Qed.


Lemma remove_ids_world ids w :
  (forall k, mem (remove_ids ids w) !! k = if bool_decide (k ∈ ids) then None else mem w !! k) /\
  disk (remove_ids ids w) = disk w /\ snap (remove_ids ids w) = snap w /\
  meta_writable (remove_ids ids w) = meta_writable w /\ locked (remove_ids ids w) = locked w.
Proof.
  unfold remove_ids. revert w. induction ids as [|i ids IH]; intros w.
  - cbn. repeat split; auto.
  - cbn [fold_left]. destruct (IH (set_mem (delete i (mem w)) (emit (EvMetaDelete i) w)))
      as (Hm & Hd & Hs & Hw & Hl).
    cbn in Hd, Hs, Hw, Hl. repeat split; auto.
    intros k. rewrite Hm. cbn [mem set_mem emit].
    destruct (bool_decide (k ∈ ids)) eqn:E1.
    + apply bool_decide_eq_true in E1. rewrite bool_decide_true; [reflexivity|].
      apply elem_of_cons. right. exact E1.
    + apply bool_decide_eq_false in E1. destruct (decide (k = i)) as [->|Hne].
      * rewrite lookup_delete_eq, bool_decide_true; [reflexivity|]. apply elem_of_cons. left. reflexivity.
      * rewrite lookup_delete_ne by congruence. rewrite bool_decide_false; [reflexivity|].
        intros H. apply elem_of_cons in H as [H|H]; [congruence|contradiction].
Qed.

Lemma remove_ids_truncates ids w :
  meta_truncates (remove_ids ids w) = meta_truncates w.
Proof.
  unfold remove_ids. revert w. induction ids as [|i ids IH]; intros w; [reflexivity|].
  cbn [fold_left]. rewrite IH. reflexivity.
Qed.

Lemma values_lookup w r : In r (values w) <-> exists k, mem w !! k = Some r.
Proof.
  unfold values. rewrite in_map_iff. split.
  - intros ([k r'] & <- & Hin). exists k. apply list_elem_of_In, elem_of_map_to_list in Hin.
    exact Hin.
  - intros (k & Hk). exists (k, r). split; [reflexivity|].
    apply list_elem_of_In, elem_of_map_to_list. exact Hk.
Qed.

Lemma filter_all_false {A} (f : A -> bool) (l : list A) :
  (forall x, In x l -> f x = false) -> List.filter f l = [].
Proof.
  induction l as [|x l IH]; intros H; [reflexivity|]. cbn.
  rewrite (H x (or_introl eq_refl)). apply IH. intros y Hy. apply H. right. exact Hy.
Qed.

(** The effect of [cleanOrphanedMetadata]. *)
Lemma cleanOrphanedMetadata_world w :
  keys_are_ids (mem w) ->
  let orphaned := List.filter (fun r => negb (exists_on_disk (path r) w)) (values w) in
  let w' := snd (cleanOrphanedMetadata w) in
  (forall k, mem w' !! k =
     match mem w !! k with
     | Some r => if exists_on_disk (path r) w then Some r else None
     | None => None
     end) /\
  disk w' = disk w /\ locked w' = locked w /\
  fst (cleanOrphanedMetadata w) =
    (if ((0 <? List.length orphaned)%nat && negb (meta_writable w))%bool then Err PersistFailed
     else Ok (N.of_nat (List.length orphaned))) /\
  (orphaned = [] -> cleanOrphanedMetadata w = (Ok 0, w)) /\
  snap w' = (if (0 <? List.length orphaned)%nat then
               if meta_writable w then Some (mem w') else failed_snap w
             else snap w).
Proof.
  intros Hk. cbv zeta. unfold cleanOrphanedMetadata.
  erewrite bind_ok by reflexivity.
  erewrite bind_ok by reflexivity.
  set (orph := List.filter _ (values w)).
  set (ids := map id orph).
  destruct (remove_ids_world ids w) as (Rm & Rd & Rs & Rw & Rl).
  assert (Hmem : forall k, mem (remove_ids ids w) !! k =
     match mem w !! k with
     | Some r => if exists_on_disk (path r) w then Some r else None
     | None => None
     end).
  { intros k. rewrite Rm. destruct (mem w !! k) as [r|] eqn:Hr.
    - assert (Hid : id r = k) by exact (Hk _ _ Hr).
      destruct (exists_on_disk (path r) w) eqn:He.
      + rewrite bool_decide_false; [reflexivity|]. intros Hin.
        apply list_elem_of_In in Hin.
        unfold ids in Hin. apply in_map_iff in Hin as (r' & Hid' & Hr').
        unfold orph in Hr'. apply filter_In in Hr' as [Hr' Hn].
        apply values_lookup in Hr' as (k' & Hk').
        pose proof (Hk _ _ Hk') as Hid''. cbn in Hid''. subst k'.
        rewrite Hid' in Hk'. rewrite Hk' in Hr. injection Hr as ->. rewrite He in Hn. discriminate.
      + rewrite bool_decide_true; [reflexivity|]. apply list_elem_of_In. unfold ids. rewrite <- Hid.
        apply in_map. unfold orph. apply filter_In. split.
        * apply values_lookup. eauto.
        * rewrite He. reflexivity.
    - destruct (bool_decide _); reflexivity. }
  assert (Hids : ids = map id orph) by reflexivity. clearbody ids orph. subst ids.
  rewrite length_map.
  destruct orph as [|r0 rest].
  - cbn in Hmem. cbn. repeat split; auto.
  - cbn [List.length Nat.ltb Nat.leb]. cbn [andb].
    unfold bind, persist. rewrite Rw.
    destruct (meta_writable w).
    + cbn. rewrite ?Rd, ?Rl, ?Rs. repeat split; auto; discriminate.
    + destruct (failed_write_frame (remove_ids (map id (r0 :: rest)) w))
        as (Fm & Fd & _ & _ & Fl & _ & Fs).
      cbn [fst snd andb negb]. rewrite Fm, Fd, Fl, Fs, Rd, Rl.
      unfold failed_snap. rewrite remove_ids_truncates, Rs.
      repeat split; auto; discriminate.
Qed.

(** X: [cleanOrphanedMetadata] (the orphaned-metadata phase of the sweep)
    removes from memory exactly the records whose file is missing, keeps
    every other record, never touches the upload directory, and returns
    the number of records it removed; it writes files.json only when it
    removed something, and throws only when that write fails. *)
Theorem cleanOrphanedMetadata_removes_missing w :
  keys_are_ids (mem w) ->
  let orphaned := List.filter (fun r => negb (exists_on_disk (path r) w)) (values w) in
  let w' := snd (cleanOrphanedMetadata w) in
  (forall k, mem w' !! k =
     match mem w !! k with
     | Some r => if exists_on_disk (path r) w then Some r else None
     | None => None
     end) /\
  disk w' = disk w /\
  fst (cleanOrphanedMetadata w) =
    (if ((0 <? List.length orphaned)%nat && negb (meta_writable w))%bool then Err PersistFailed
     else Ok (N.of_nat (List.length orphaned))) /\
  snap w' = (if (0 <? List.length orphaned)%nat then
               if meta_writable w then Some (mem w') else failed_snap w
             else snap w).
Proof.
  intros Hk. destruct (cleanOrphanedMetadata_world w Hk) as (Hm & Hd & _ & Hr & _ & Hs).
  auto.
Qed.

(** X: a second [cleanOrphanedMetadata] right after one that succeeded
    finds nothing to remove, returns 0 and changes nothing (no write). *)
Theorem cleanOrphanedMetadata_idempotent w n w' :
  keys_are_ids (mem w) ->
  cleanOrphanedMetadata w = (Ok n, w') ->
  cleanOrphanedMetadata w' = (Ok 0, w').
Proof.
  intros Hk Hrun. destruct (cleanOrphanedMetadata_world w Hk) as (Hm & Hd & _).
  rewrite Hrun in Hm, Hd. cbn [snd] in Hm, Hd.
  assert (Hk' : keys_are_ids (mem w')).
  { intros k r Hr. rewrite Hm in Hr. destruct (mem w !! k) eqn:E; [|discriminate].
    destruct (exists_on_disk _ _); [|discriminate]. injection Hr as <-. exact (Hk _ _ E). }
  destruct (cleanOrphanedMetadata_world w' Hk') as (_ & _ & _ & _ & Hnil & _).
  apply Hnil. apply filter_all_false. intros r Hin.
  apply values_lookup in Hin as (k & Hr). rewrite Hm in Hr.
  destruct (mem w !! k) eqn:E; [|discriminate].
  destruct (exists_on_disk (path f) w) eqn:He; [|discriminate]. injection Hr as <-.
  unfold exists_on_disk in *. rewrite Hd, He. reflexivity.
Qed.


Lemma last_cons_match {A} (x : A) l :
  last (x :: l) = match last l with Some y => Some y | None => Some x end.
Proof.
  destruct l as [|y l]; [reflexivity|]. rewrite last_cons_cons.
  destruct (last (y :: l)) eqn:E; [reflexivity|]. apply last_None in E. discriminate.
Qed.

Lemma load_records_lookup rs acc i :
  Init.load_records rs acc !! i =
  match last (List.filter (fun r => String.eqb (id r) i) rs) with
  | Some r => Some r
  | None => acc !! i
  end.
Proof.
  unfold Init.load_records. revert acc. induction rs as [|x rs IH]; intros acc; [reflexivity|].
  cbn [fold_left]. rewrite IH.
  change (List.filter ?f (x :: rs)) with (if f x then x :: List.filter f rs else List.filter f rs).
  cbv beta.
  destruct (last (List.filter _ rs)) eqn:El.
  - destruct (String.eqb (id x) i); [rewrite last_cons_match|]; rewrite El; reflexivity.
  - destruct (String.eqb (id x) i) eqn:Ex.
    + apply String.eqb_eq in Ex. subst i. rewrite last_cons_match, El, lookup_insert_eq. reflexivity.
    + apply String.eqb_neq in Ex. rewrite El, lookup_insert_ne by exact Ex. reflexivity.
Qed.

Lemma last_filter_prop {A} (f : A -> bool) l r :
  last (List.filter f l) = Some r -> f r = true /\ In r l.
Proof.
  intros H. assert (Hin : In r (List.filter f l)).
  { destruct (List.filter f l) as [|y l'] eqn:E using rev_ind; [discriminate|].
    rewrite last_snoc in H. injection H as ->. apply in_or_app. right. left. reflexivity. }
  apply filter_In in Hin. tauto.
Qed.

(** X: [initialize] loads the records of files.json in order, so when
    the file lists several records with the same id the last one wins;
    every loaded record is stored under its own id. *)
Theorem initialize_last_record_wins rs :
  exists m, Init.initialize false ∅ (Init.MetaRecords rs) = Some (true, m) /\
  keys_are_ids m /\
  forall i, m !! i = last (List.filter (fun r => String.eqb (id r) i) rs).
Proof.
  exists (Init.load_records rs ∅). split; [reflexivity|]. split.
  - intros k r Hr. rewrite load_records_lookup in Hr.
    destruct (last _) eqn:E; [|rewrite lookup_empty in Hr; discriminate].
    injection Hr as <-. apply last_filter_prop in E as [E _]. apply String.eqb_eq. exact E.
  - intros i. rewrite load_records_lookup. destruct (last _); [reflexivity|].
    apply lookup_empty.
Qed.

Lemma filter_id_values m i :
  keys_are_ids m ->
  List.filter (fun r => String.eqb (id r) i) (map snd (map_to_list m)) =
  match m !! i with Some r => [r] | None => [] end.
Proof.
  intros Hk.
  assert (Hnd : NoDup (map id (map snd (map_to_list m)))).
  { replace (map id (map snd (map_to_list m))) with (map fst (map_to_list m)).
    - apply NoDup_fst_map_to_list.
    - rewrite map_map. apply map_ext_in. intros [k r] Hin.
      apply list_elem_of_In, elem_of_map_to_list in Hin. cbn. symmetry. exact (Hk _ _ Hin). }
  assert (H1 : forall r, In r (map snd (map_to_list m)) -> m !! id r = Some r).
  { intros r. rewrite in_map_iff.
    intros ([k r'] & <- & H). apply list_elem_of_In, elem_of_map_to_list in H.
    cbn. rewrite (Hk _ _ H). exact H. }
  assert (H2 : forall r, m !! i = Some r -> In r (map snd (map_to_list m))).
  { intros r H. apply in_map_iff. exists (i, r). split; [reflexivity|].
    apply list_elem_of_In, elem_of_map_to_list. exact H. }
  revert Hnd H1 H2. generalize (map snd (map_to_list m)) as l.
  induction l as [|x l IH]; intros Hnd H1 H2.
  - destruct (m !! i) as [r|] eqn:E; [|reflexivity]. destruct (H2 r eq_refl).
  - change (List.filter ?f (x :: l)) with (if f x then x :: List.filter f l else List.filter f l).
    cbv beta. inversion Hnd as [|? ? Hx Hnd']; subst.
    destruct (String.eqb (id x) i) eqn:Ex.
    + apply String.eqb_eq in Ex. subst i.
      rewrite (H1 x (or_introl eq_refl)).
      f_equal. apply filter_all_false. intros y Hy. apply String.eqb_neq.
      intros Hid. apply Hx. rewrite <- Hid. apply list_elem_of_In, in_map. exact Hy.
    + apply String.eqb_neq in Ex. apply IH; [exact Hnd'| |].
      * intros r Hr. apply H1. right. exact Hr.
      * intros r Hr. destruct (H2 r Hr) as [<-|Hl]; [|exact Hl].
        exfalso. apply Ex. exact (Hk _ _ Hr).
Qed.

(** X: what [persist] writes is read back by [initialize] as the same
    store: reloading files.json after a restart gives every record under
    its id and nothing else. *)
Theorem persist_then_initialize m :
  keys_are_ids m ->
  Init.initialize false ∅ (Init.persisted m) = Some (true, m).
Proof.
  intros Hk. cbn. f_equal. f_equal. apply map_eq. intros i.
  rewrite load_records_lookup, filter_id_values by exact Hk.
  destruct (m !! i); [reflexivity|]. apply lookup_empty.
Qed.

(** X: after an [addFile] whose snapshot write failed, a restart does not
    see the new record: when the write failed after [fs.writeFile]'s
    truncating open (disk full), files.json holds a partial text and
    [initialize] throws; when the open itself failed, files.json is as
    before and [initialize] reloads exactly what it reloaded before. *)
Theorem addFile_failed_write_on_restart c date now fd w e w' :
  addFile c date now fd w = (Err e, w') ->
  Init.initialize false ∅ (Init.meta_file (snap w')) =
    (if meta_truncates w then None else Init.initialize false ∅ (Init.meta_file (snap w))).
Proof.
  rewrite addFile_outcome. destruct (meta_writable w); [discriminate|].
  intros Hrun. injection Hrun as _ <-.
  destruct (failed_write_frame (set_mem (<[mf_filename fd := make_record c date now fd]> (mem w)) w))
    as (_ & _ & _ & _ & _ & _ & Hs).
  rewrite Hs. unfold failed_snap. cbn [meta_truncates snap set_mem].
  destruct (meta_truncates w); reflexivity.
Qed.


Lemma expire_each_cons_exact file rest n w r0 :
  mem w !! id file = Some r0 ->
  expire_each (file :: rest) n w =
  expire_each rest (if meta_writable w then n + 1 else n) (after_expire file w).
Proof.
  intros Hr. cbn [expire_each].
  pose proof (unlink_frame (path file) w) as (Hm & Hw & _).
  assert (Hu : catch (unlink (path file)) (fun _ => ret tt) w = (Ok tt, snd (unlink (path file) w))).
  { unfold catch. destruct (unlink _ _) as [[[]|] w1]; reflexivity. }
  unfold after_expire. set (w1 := snd (unlink (path file) w)) in *.
  rewrite <- Hm in Hr. rewrite <- Hw.
  erewrite bind_ok; [reflexivity|].
  unfold catch at 1. rewrite (bind_ok _ _ w tt w1 Hu).
  unfold bind at 1. rewrite (deleteFile_present _ _ _ Hr). cbv zeta.
  unfold persist. cbn [meta_writable set_mem emit].
  destruct (meta_writable w1); reflexivity.
Qed.

Lemma after_expire_world file w :
  locked (after_expire file w) = locked w /\
  (forall q, disk (after_expire file w) !! q =
     if (bool_decide (q = path file) && negb (bool_decide (q ∈ locked w)))%bool then None
     else disk w !! q) /\
  snap (after_expire file w) =
    (if meta_writable w then Some (mem (after_expire file w)) else failed_snap w) /\
  meta_truncates (after_expire file w) = meta_truncates w.
Proof.
  pose proof (unlink_frame (path file) w) as (Hm & Hw & Hl & _ & Hq & Hok & Hd & Hnd).
  assert (Hdisk : forall q, disk (snd (unlink (path file) w)) !! q =
     if (bool_decide (q = path file) && negb (bool_decide (q ∈ locked w)))%bool then None
     else disk w !! q).
  { intros q. destruct (decide (q = path file)) as [->|Hne].
    - rewrite bool_decide_true by reflexivity. cbn [andb negb].
      destruct (bool_decide (path file ∈ locked w)) eqn:El; cbn [andb negb].
      + apply bool_decide_eq_true in El. rewrite Hnd; [reflexivity|].
        intros Hk. apply Hok in Hk as [Hk _]. contradiction.
      + apply bool_decide_eq_false in El.
        destruct (fst (unlink (path file) w)) as [[]|f] eqn:Ef.
        * apply Hd. reflexivity.
        * rewrite Hnd by discriminate. destruct (disk w !! path file) eqn:E; [|reflexivity].
          exfalso. assert (Hx : Err f = Ok tt) by (apply Hok; split; [exact El|eexists; reflexivity]).
          discriminate.
    - rewrite bool_decide_false by exact Hne. apply Hq. exact Hne. }
  unfold after_expire. set (w1 := snd (unlink (path file) w)) in *.
  assert (Hs : snap w1 = snap w /\ meta_truncates w1 = meta_truncates w).
  { unfold w1, unlink, bind, modify. cbn.
    destruct (decide _); [auto|]. destruct (disk w !! path file); auto. }
  destruct Hs as [Hs Ht].
  set (w2 := set_mem (delete (id file) (mem w1)) (emit (EvMetaDelete (id file)) w1)).
  assert (H2 : locked w2 = locked w1 /\ disk w2 = disk w1 /\ snap w2 = snap w1 /\
               meta_writable w2 = meta_writable w1 /\ meta_truncates w2 = meta_truncates w1)
    by (unfold w2; cbn; auto).
  destruct H2 as (H2l & H2d & H2s & H2w & H2t).
  unfold persist. rewrite H2w, Hw.
  destruct (meta_writable w); cbn [snd].
  - cbn [locked disk snap mem meta_truncates emit set_snap].
    rewrite H2l, H2d, H2t, Ht. auto.
  - destruct (failed_write_frame w2) as (_ & Fd & _ & Ft & Fl & _ & Fs).
    rewrite Fd, Fl, Ft, Fs, H2l, H2d, H2t, Ht. unfold failed_snap.
    rewrite H2t, H2s, Hs, Ht. auto.
Qed.

Lemma expire_each_world l n w :
  NoDup (map id l) -> (forall r, In r l -> is_Some (mem w !! id r)) ->
  let w' := snd (expire_each l n w) in
  fst (expire_each l n w) = Ok (if meta_writable w then n + N.of_nat (List.length l) else n) /\
  (forall k, mem w' !! k = if bool_decide (k ∈ map id l) then None else mem w !! k) /\
  (forall q, disk w' !! q =
     if (bool_decide (q ∈ map path l) && negb (bool_decide (q ∈ locked w)))%bool then None
     else disk w !! q) /\
  locked w' = locked w /\ meta_writable w' = meta_writable w /\
  meta_truncates w' = meta_truncates w /\
  snap w' = (if (0 <? List.length l)%nat then
               if meta_writable w then Some (mem w') else failed_snap w
             else snap w).
Proof.
  cbv zeta. revert n w. induction l as [|file rest IH]; intros n w Hnd Hin.
  - cbn. rewrite N.add_0_r. destruct (meta_writable w); repeat split; auto.
  - destruct (Hin file (or_introl eq_refl)) as [r0 Hr0].
    rewrite (expire_each_cons_exact file rest n w r0 Hr0).
    cbn [map] in Hnd. apply NoDup_cons in Hnd as [Hnot Hnd].
    destruct (after_expire_frame file w) as (Fm & Fw & _).
    destruct (after_expire_world file w) as (Fl & Fd & Fs & Ft).
    destruct (IH (if meta_writable w then n + 1 else n) (after_expire file w) Hnd) as
      (Ir & Im & Id & Il & Iw & It & Is).
    { intros r Hr. rewrite Fm. rewrite lookup_delete_ne.
      * apply Hin. right. exact Hr.
      * intros Heq. apply Hnot. rewrite Heq. apply list_elem_of_In. apply in_map. exact Hr. }
    rewrite Fw, Fl in *. repeat split.
    + rewrite Ir. destruct (meta_writable w); [|reflexivity]. f_equal. cbn [List.length]. lia.
    + intros k. rewrite Im, Fm. cbn [map].
      destruct (decide (k = id file)) as [->|Hne].
      * rewrite lookup_delete_eq. rewrite (bool_decide_true (_ ∈ _ :: _)) by (left).
        destruct (bool_decide _); reflexivity.
      * rewrite lookup_delete_ne by congruence.
        destruct (bool_decide (k ∈ map id rest)) eqn:E.
        -- apply bool_decide_eq_true in E. rewrite bool_decide_true; [reflexivity|]. right. exact E.
        -- apply bool_decide_eq_false in E. rewrite bool_decide_false; [reflexivity|].
           intros H. apply elem_of_cons in H as [H|H]; contradiction.
    + intros q. rewrite Id, Fd. cbn [map].
      destruct (bool_decide (q ∈ locked w)); cbn [negb andb].
      * rewrite !andb_false_r. reflexivity.
      * rewrite !andb_true_r.
        destruct (bool_decide (q ∈ path file :: map path rest)) eqn:E.
        -- apply bool_decide_eq_true, elem_of_cons in E as [->|E].
           ++ rewrite (bool_decide_true (_ = _)) by reflexivity.
              destruct (bool_decide _); reflexivity.
           ++ rewrite (bool_decide_true (_ ∈ map path rest)) by exact E. reflexivity.
        -- apply bool_decide_eq_false in E.
           rewrite (bool_decide_false (_ ∈ map path rest)) by (intros H; apply E; right; exact H).
           rewrite (bool_decide_false (_ = _)) by (intros ->; apply E; left). reflexivity.
    + exact Il.
    + exact Iw.
    + rewrite It, Ft. reflexivity.
    + rewrite Is. cbn [List.length Nat.ltb Nat.leb].
      destruct rest as [|r1 rest'].
      * cbn [List.length Nat.ltb Nat.leb expire_each snd]. rewrite Fs. reflexivity.
      * cbn [List.length Nat.ltb Nat.leb]. destruct (meta_writable w); [reflexivity|].
        unfold failed_snap at 1. rewrite Ft, Fs. unfold failed_snap.
        destruct (meta_truncates w); reflexivity.
Qed.

(** X: the effect of [cleanupExpiredFiles]: every record whose
    expiration date has passed is removed from memory (even when the
    metadata write fails), every other record is kept, the file of each
    expired record is gone from the upload directory unless it is locked,
    no other file is touched, and the returned count is the number of
    expired records when files.json is writable and 0 when it is not. *)
Theorem cleanupExpiredFiles_effect now w :
  keys_are_ids (mem w) ->
  let expired := List.filter (fun r => expiresAt r <=? now) (values w) in
  let w' := snd (cleanupExpiredFiles now w) in
  fst (cleanupExpiredFiles now w) =
    Ok (if meta_writable w then N.of_nat (List.length expired) else 0) /\
  (forall k, mem w' !! k =
     match mem w !! k with
     | Some r => if expiresAt r <=? now then None else Some r
     | None => None
     end) /\
  (forall q, disk w' !! q =
     if (bool_decide (q ∈ map path expired) && negb (bool_decide (q ∈ locked w)))%bool then None
     else disk w !! q) /\
  snap w' = (if (0 <? List.length expired)%nat then
               if meta_writable w then Some (mem w') else failed_snap w
             else snap w).
Proof.
  intros Hk. cbv zeta. unfold cleanupExpiredFiles.
  rewrite (bind_ok (getExpiredFiles now) _ w _ w) by reflexivity.
  destruct (values_ids w Hk) as [Hnd Hin].
  destruct (expire_each_world (List.filter (fun r => expiresAt r <=? now) (values w)) 0 w)
    as (Er & Em & Ed & _ & _ & _ & Es).
  - apply NoDup_map_filter. exact Hnd.
  - intros r Hr. apply filter_In in Hr as [Hr _]. apply Hin. exact Hr.
  - repeat split; auto.
    intros k. rewrite Em. destruct (mem w !! k) as [r|] eqn:Hr.
    + assert (Hid : id r = k) by exact (Hk _ _ Hr).
      destruct (expiresAt r <=? now) eqn:Ex.
      * rewrite bool_decide_true; [reflexivity|]. apply list_elem_of_In. rewrite <- Hid.
        apply in_map, filter_In. split; [|exact Ex]. apply values_lookup. eauto.
      * rewrite bool_decide_false; [reflexivity|]. intros Hx. apply list_elem_of_In in Hx.
        apply in_map_iff in Hx as (r' & Hid' & Hr'). apply filter_In in Hr' as [Hr' Ex'].
        apply values_lookup in Hr' as (k' & Hk'). pose proof (Hk _ _ Hk') as Hid''.
        cbn in Hid''. subst k'. rewrite Hid' in Hk'. rewrite Hk' in Hr. injection Hr as ->.
        rewrite Ex in Ex'. discriminate.
    + destruct (bool_decide _); reflexivity.
Qed.


(** *** validateFileId *)

Lemma length_list_ascii_of_string s : List.length (list_ascii_of_string s) = String.length s.
Proof. induction s as [|c s IH]; cbn; congruence. Qed.

Lemma length_string_of_list_ascii l : String.length (string_of_list_ascii l) = List.length l.
Proof. induction l as [|c l IH]; cbn; congruence. Qed.

Lemma has_char_existsb p s : Str.has_char p s = existsb p (list_ascii_of_string s).
Proof. induction s as [|c s IH]; cbn; congruence. Qed.

Lemma drop_slashes_length l : (List.length (Str.drop_slashes l) <= List.length l)%nat.
Proof. induction l as [|c l IH]; cbn; [lia|]. destruct (Str.is_slash c); cbn; lia. Qed.

Lemma take_until_slash_length l : (List.length (Str.take_until_slash l) <= List.length l)%nat.
Proof. induction l as [|c l IH]; cbn; [lia|]. destruct (Str.is_slash c); cbn; lia. Qed.

Lemma basename_length s : (String.length (Str.basename s) <= String.length s)%nat.
Proof.
  unfold Str.basename. rewrite length_string_of_list_ascii, length_rev.
  rewrite <- length_list_ascii_of_string.
  etransitivity; [apply take_until_slash_length|].
  etransitivity; [apply drop_slashes_length|]. rewrite length_rev. lia.
Qed.

Lemma drop_slashes_id l : existsb Str.is_slash l = false -> Str.drop_slashes l = l.
Proof.
  destruct l as [|c l]; [reflexivity|]. cbn.
  intros Hl. apply orb_false_iff in Hl as [Hc _]. rewrite Hc. reflexivity.
Qed.

Lemma take_until_slash_id l : existsb Str.is_slash l = false -> Str.take_until_slash l = l.
Proof.
  induction l as [|c l IH]; [reflexivity|]. cbn.
  intros Hl. apply orb_false_iff in Hl as [Hc Hl]. rewrite Hc, IH by exact Hl. reflexivity.
Qed.

Lemma basename_no_slash s : Str.has_char Str.is_slash s = false -> Str.basename s = s.
Proof.
  rewrite has_char_existsb. intros H. unfold Str.basename.
  assert (Hr : existsb Str.is_slash (rev (list_ascii_of_string s)) = false).
  { apply not_true_iff_false. intros Hx. apply existsb_exists in Hx as (c & Hc & Hs).
    apply in_rev in Hc. apply not_true_iff_false in H. apply H.
    apply existsb_exists. eauto. }
  rewrite drop_slashes_id, take_until_slash_id by exact Hr.
  rewrite rev_involutive. apply string_of_list_ascii_of_string.
Qed.

Lemma replace_dotdot_length n s :
  (String.length s <= n)%nat ->
  (String.length (Str.replace_dotdot s) <= String.length s)%nat /\
  (Str.has_dotdot s = true -> (String.length (Str.replace_dotdot s) < String.length s)%nat).
Proof.
  revert s. induction n as [|n IH]; intros s Hn.
  - destruct s; cbn in Hn; [|lia]. cbn. split; [lia|discriminate].
  - destruct s as [|a [|b rest]].
    + cbn. split; [lia|discriminate].
    + cbn. split; [lia|discriminate].
    + change (Str.replace_dotdot (String a (String b rest))) with
        (if (Str.is_dot a && Str.is_dot b)%bool then Str.replace_dotdot rest
         else String a (Str.replace_dotdot (String b rest))).
      change (Str.has_dotdot (String a (String b rest))) with
        ((Str.is_dot a && Str.is_dot b) || Str.has_dotdot (String b rest))%bool.
      cbn [String.length] in Hn.
      destruct (IH rest ltac:(lia)) as [Hr1 _].
      destruct (IH (String b rest) ltac:(cbn; lia)) as [Hs1 Hs2].
      destruct (Str.is_dot a && Str.is_dot b)%bool; cbn [orb String.length].
      * split; [|intros _]; cbn [String.length] in *; lia.
      * cbn [String.length] in *. split; [lia|]. intros H. specialize (Hs2 H). lia.
Qed.

Lemma replace_dotdot_id s : Str.has_dotdot s = false -> Str.replace_dotdot s = s.
Proof.
  induction s as [|a s IH]; [reflexivity|].
  destruct s as [|b rest]; [reflexivity|].
  change (Str.replace_dotdot (String a (String b rest))) with
    (if (Str.is_dot a && Str.is_dot b)%bool then Str.replace_dotdot rest
     else String a (Str.replace_dotdot (String b rest))).
  change (Str.has_dotdot (String a (String b rest))) with
    ((Str.is_dot a && Str.is_dot b) || Str.has_dotdot (String b rest))%bool.
  intros H. apply orb_false_iff in H as [Hab H]. rewrite Hab. rewrite IH by exact H. reflexivity.
Qed.

Lemma remove_separators_length s :
  (String.length (Str.remove_separators s) <= String.length s)%nat.
Proof.
  induction s as [|c s IH]; cbn; [lia|].
  destruct (Str.is_slash c || Str.is_backslash c)%bool; cbn; lia.
Qed.

Lemma remove_separators_same_length s :
  String.length (Str.remove_separators s) = String.length s -> Str.remove_separators s = s.
Proof.
  induction s as [|c s IH]; [reflexivity|]. cbn.
  pose proof (remove_separators_length s).
  destruct (Str.is_slash c || Str.is_backslash c)%bool; cbn; intros H'; [lia|].
  rewrite IH by lia. reflexivity.
Qed.

Lemma remove_separators_id s :
  Str.has_char Str.is_slash s = false -> Str.has_char Str.is_backslash s = false ->
  Str.remove_separators s = s.
Proof.
  induction s as [|c s IH]; [reflexivity|]. cbn.
  intros H1 H2. apply orb_false_iff in H1 as [H1 H1']. apply orb_false_iff in H2 as [H2 H2'].
  rewrite H1, H2. cbn. rewrite IH by assumption. reflexivity.
Qed.

Lemma validateFileId_id_iff s :
  validateFileId s = Some s <->
  s <> "" /\ Str.has_char Str.is_slash s = false /\
  Str.has_char Str.is_backslash s = false /\ Str.has_dotdot s = false.
Proof.
  unfold validateFileId. split.
  - destruct (String.eqb s "") eqn:E0; [discriminate|].
    destruct (sanitizeFilename s) as [t|f] eqn:Es; [|discriminate].
    intros H. injection H as <-.
    destruct (sanitizeFilename_no_separators _ _ Es) as (Hne & Hs & Hb).
    repeat split; try assumption.
    unfold sanitizeFilename in Es.
    destruct (String.eqb _ "") eqn:E1; [discriminate|]. injection Es as Es.
    set (b := Str.basename t) in Es.
    pose proof (basename_length t) as Lb. fold b in Lb.
    destruct (replace_dotdot_length _ b (le_n _)) as [Lr1 Lr2].
    pose proof (remove_separators_length (Str.replace_dotdot b)) as Ls.
    rewrite Es in Ls.
    destruct (Str.has_dotdot b) eqn:Hb'.
    + specialize (Lr2 eq_refl). lia.
    + rewrite replace_dotdot_id in Es by exact Hb'.
      assert (Hid : Str.remove_separators b = b).
      { apply remove_separators_same_length. rewrite Es.
        rewrite replace_dotdot_id in Ls by exact Hb'. lia. }
      rewrite Hid in Es. rewrite <- Es. exact Hb'.
  - intros (Hne & Hs & Hb & Hd).
    destruct (String.eqb s "") eqn:E0; [apply String.eqb_eq in E0; contradiction|].
    unfold sanitizeFilename. rewrite basename_no_slash by exact Hs.
    rewrite replace_dotdot_id by exact Hd. rewrite remove_separators_id by assumption.
    rewrite E0. reflexivity.
Qed.

(** X: [validateFileId] passes a file id on unchanged exactly when it is
    non-empty and contains no '/', no '\' and no ".."; every other id is
    rejected (400) or rewritten by [sanitizeFilename]. *)
Theorem validateFileId_unchanged_iff s :
  validateFileId s = Some s <->
  s <> "" /\ Str.has_char Str.is_slash s = false /\
  Str.has_char Str.is_backslash s = false /\ Str.has_dotdot s = false.
Proof. apply validateFileId_id_iff. Qed.

(** *** generateUniqueFilename *)

Lemma str_app_cons x (a b : string) : (String x a ++ b)%string = String x (a ++ b)%string.
Proof. reflexivity. Qed.

Lemma str_app_nil_l (b : string) : ("" ++ b)%string = b.
Proof. reflexivity. Qed.

Lemma str_app_assoc (a b c : string) : ((a ++ b) ++ c = a ++ (b ++ c))%string.
Proof.
  induction a as [|x a IH]; [reflexivity|]. rewrite !str_app_cons, IH. reflexivity.
Qed.

Lemma str_app_nil_r (a : string) : (a ++ "")%string = a.
Proof. induction a as [|x a IH]; [reflexivity|]. rewrite str_app_cons, IH. reflexivity. Qed.

Lemma has_char_app p (a b : string) :
  Str.has_char p (a ++ b)%string = (Str.has_char p a || Str.has_char p b)%bool.
Proof.
  induction a as [|x a IH]; [reflexivity|]. rewrite str_app_cons. cbn [Str.has_char].
  rewrite IH. apply orb_assoc.
Qed.

Lemma has_char_mono (p q : ascii -> bool) s :
  (forall c, p c = true -> q c = true) -> Str.has_char p s = true -> Str.has_char q s = true.
Proof.
  intros Hpq. induction s as [|c s IH]; cbn; [discriminate|].
  intros H. apply orb_true_iff in H as [H|H].
  - rewrite (Hpq c H). reflexivity.
  - rewrite IH by exact H. apply orb_true_r.
Qed.

Lemma has_char_substring p n m s :
  Str.has_char p (substring n m s) = true -> Str.has_char p s = true.
Proof.
  revert n m. induction s as [|c s IH]; intros n m; [destruct n, m; cbn; discriminate|].
  destruct n as [|n]; cbn.
  - destruct m as [|m]; cbn; [discriminate|].
    intros H. apply orb_true_iff in H as [H|H]; [rewrite H; reflexivity|].
    rewrite (IH 0%nat m H). apply orb_true_r.
  - intros H. rewrite (IH n m H). apply orb_true_r.
Qed.

Lemma below_10_safe k : k < 10 -> Names.is_safe (ascii_of_N (48 + k)) = true.
Proof.
  intros Hk.
  assert (Hall : forallb (fun k => Names.is_safe (ascii_of_N (48 + k))) (map N.of_nat (seq 0 10)) = true)
    by reflexivity.
  rewrite forallb_forall in Hall. apply Hall.
  rewrite <- (N2Nat.id k). apply in_map, in_seq. lia.
Qed.

Lemma hex_digit_safe k : k < 16 -> Names.is_safe (Names.hex_digit k) = true.
Proof.
  intros Hk.
  assert (Hall : forallb (fun k => Names.is_safe (Names.hex_digit k)) (map N.of_nat (seq 0 16)) = true)
    by reflexivity.
  rewrite forallb_forall in Hall. apply Hall.
  rewrite <- (N2Nat.id k). apply in_map, in_seq. lia.
Qed.

Lemma replace_unsafe_safe s : Str.has_char (fun c => negb (Names.is_safe c)) (Names.replace_unsafe s) = false.
Proof.
  induction s as [|c s IH]; [reflexivity|]. cbn. rewrite IH.
  destruct (Names.is_safe c) eqn:E; cbn; [rewrite E|]; reflexivity.
Qed.

Lemma digits_safe fuel n acc :
  Str.has_char (fun c => negb (Names.is_safe c)) acc = false ->
  Str.has_char (fun c => negb (Names.is_safe c)) (Names.digits fuel n acc) = false.
Proof.
  revert n acc. induction fuel as [|f IH]; intros n acc Hacc; cbn [Names.digits]; [exact Hacc|].
  assert (Hd : Str.has_char (fun c => negb (Names.is_safe c))
                 (String (ascii_of_N (48 + n mod 10)) acc) = false).
  { cbn. rewrite below_10_safe by (apply N.mod_lt; discriminate). exact Hacc. }
  destruct (n <? 10); [exact Hd|]. apply IH. exact Hd.
Qed.

Lemma hex_safe r : Str.has_char (fun c => negb (Names.is_safe c)) (Names.hex r) = false.
Proof.
  induction r as [|b r IH]; [reflexivity|]. cbn [Names.hex Str.has_char].
  pose proof (Byte.to_N_bounded b) as Hb.
  rewrite hex_digit_safe by (apply N.Div0.div_lt_upper_bound; lia).
  rewrite hex_digit_safe by (apply N.mod_lt; discriminate).
  exact IH.
Qed.

Lemma generated_split o t r :
  Names.generateUniqueFilename o t r =
  ((substring 0 50 (Names.replace_unsafe (Names.basename_ext o (Str.extname o))) ++ "_" ++
   Names.decimal t ++ "_" ++ Names.hex r) ++ Str.extname o)%string.
Proof. unfold Names.generateUniqueFilename. rewrite !str_app_assoc. reflexivity. Qed.

Lemma generated_prefix_safe o t r :
  Str.has_char (fun c => negb (Names.is_safe c))
    (substring 0 50 (Names.replace_unsafe (Names.basename_ext o (Str.extname o))) ++ "_" ++
     Names.decimal t ++ "_" ++ Names.hex r)%string = false.
Proof.
  rewrite !has_char_app.
  destruct (Str.has_char _ (substring _ _ _)) eqn:E.
  - apply has_char_substring in E. rewrite replace_unsafe_safe in E. discriminate.
  - cbn [orb]. unfold Names.decimal. rewrite digits_safe by reflexivity. rewrite hex_safe. reflexivity.
Qed.

Lemma safe_not p (s : string) :
  (forall c, p c = true -> Names.is_safe c = false) ->
  Str.has_char (fun c => negb (Names.is_safe c)) s = false -> Str.has_char p s = false.
Proof.
  intros Hp Hs. apply not_true_iff_false. intros H.
  apply (has_char_mono p (fun c => negb (Names.is_safe c))) in H.
  - congruence.
  - intros c Hc. rewrite (Hp c Hc). reflexivity.
Qed.

Lemma dot_unsafe c : Str.is_dot c = true -> Names.is_safe c = false.
Proof. unfold Str.is_dot. intros H. apply Ascii.eqb_eq in H. subst c. reflexivity. Qed.
Lemma slash_unsafe c : Str.is_slash c = true -> Names.is_safe c = false.
Proof. unfold Str.is_slash. intros H. apply Ascii.eqb_eq in H. subst c. reflexivity. Qed.
Lemma backslash_unsafe c : Str.is_backslash c = true -> Names.is_safe c = false.
Proof. unfold Str.is_backslash. intros H. apply Ascii.eqb_eq in H. subst c. reflexivity. Qed.


Lemma list_ascii_of_string_app (a b : string) :
  list_ascii_of_string (a ++ b)%string = list_ascii_of_string a ++ list_ascii_of_string b.
Proof.
  induction a as [|x a IH]; [reflexivity|]. rewrite str_app_cons. cbn. rewrite IH. reflexivity.
Qed.

Lemma string_of_list_ascii_app l1 l2 :
  string_of_list_ascii (l1 ++ l2) = (string_of_list_ascii l1 ++ string_of_list_ascii l2)%string.
Proof.
  induction l1 as [|x l1 IH]; [reflexivity|]. cbn. rewrite IH. reflexivity.
Qed.

Lemma str_length_app (a b : string) :
  String.length (a ++ b)%string = (String.length a + String.length b)%nat.
Proof. induction a as [|x a IH]; [reflexivity|]. rewrite str_app_cons. cbn. rewrite IH. reflexivity. Qed.

Lemma substring_app_l (a b : string) n :
  substring (String.length a) n (a ++ b)%string = substring 0 n b.
Proof. induction a as [|x a IH]; [reflexivity|]. rewrite str_app_cons. cbn. exact IH. Qed.

Lemma substring_full (b : string) : substring 0 (String.length b) b = b.
Proof. induction b as [|x b IH]; [reflexivity|]. cbn. rewrite IH. reflexivity. Qed.

Lemma last_dot_from_app k a b :
  Str.last_dot_from k (a ++ b) =
  match Str.last_dot_from (k + List.length a) b with
  | Some j => Some j
  | None => Str.last_dot_from k a
  end.
Proof.
  revert k. induction a as [|c a IH]; intros k.
  - cbn. rewrite Nat.add_0_r. destruct (Str.last_dot_from k b); reflexivity.
  - cbn [app Str.last_dot_from List.length]. rewrite IH.
    replace (S k + List.length a)%nat with (k + S (List.length a))%nat by lia.
    destruct (Str.last_dot_from (k + S (List.length a)) b); reflexivity.
Qed.

Lemma last_dot_from_none k l : existsb Str.is_dot l = false -> Str.last_dot_from k l = None.
Proof.
  revert k. induction l as [|c l IH]; intros k; [reflexivity|]. cbn.
  intros H. apply orb_false_iff in H as [Hc H]. rewrite IH by exact H. rewrite Hc. reflexivity.
Qed.

Lemma last_dot_from_none_inv k l : Str.last_dot_from k l = None -> existsb Str.is_dot l = false.
Proof.
  revert k. induction l as [|c l IH]; intros k; [reflexivity|]. cbn.
  destruct (Str.last_dot_from (S k) l) eqn:E; [discriminate|].
  rewrite (IH _ E). destruct (Str.is_dot c); [discriminate|reflexivity].
Qed.

Lemma last_dot_from_some k l j :
  Str.last_dot_from k l = Some j ->
  exists x y, l = x ++ "."%char :: y /\ j = (k + List.length x)%nat /\ existsb Str.is_dot y = false.
Proof.
  revert k. induction l as [|c l IH]; intros k; [discriminate|]. cbn.
  destruct (Str.last_dot_from (S k) l) eqn:E.
  - intros H. injection H as <-. destruct (IH _ E) as (x & y & -> & -> & Hy).
    exists (c :: x), y. cbn. split; [reflexivity|]. split; [lia|exact Hy].
  - destruct (Str.is_dot c) eqn:Hc; [|discriminate]. intros H. injection H as <-.
    unfold Str.is_dot in Hc. apply Ascii.eqb_eq in Hc. subst c.
    exists [], l. split; [reflexivity|]. split; [cbn; lia|]. exact (last_dot_from_none_inv _ _ E).
Qed.

Lemma take_until_slash_free l : existsb Str.is_slash (Str.take_until_slash l) = false.
Proof.
  induction l as [|c l IH]; [reflexivity|]. cbn.
  destruct (Str.is_slash c) eqn:E; [reflexivity|]. cbn. rewrite E. exact IH.
Qed.

Lemma existsb_rev {A} (f : A -> bool) l : existsb f (rev l) = existsb f l.
Proof.
  induction l as [|x l IH]; [reflexivity|]. cbn. rewrite existsb_app, IH. cbn.
  rewrite orb_false_r. apply orb_comm.
Qed.

Lemma basename_slash_free s : Str.has_char Str.is_slash (Str.basename s) = false.
Proof.
  unfold Str.basename. rewrite has_char_existsb, list_ascii_of_string_of_list_ascii.
  rewrite existsb_rev. apply take_until_slash_free.
Qed.

(** What [path.extname] returns: nothing, or a dot followed by characters
    that are neither dots nor slashes. *)
Lemma extname_shape s :
  Str.extname s = "" \/
  exists rest, Str.extname s = String "." rest /\
    Str.has_char Str.is_dot rest = false /\ Str.has_char Str.is_slash rest = false.
Proof.
  unfold Str.extname. pose proof (basename_slash_free s) as Hns.
  set (b := Str.basename s) in *.
  destruct (Str.last_dot_from 0 (list_ascii_of_string b)) as [[|i]|] eqn:E; [left; reflexivity| |left; reflexivity].
  destruct (String.eqb b "..") eqn:Eb; [left; reflexivity|]. right.
  destruct (last_dot_from_some _ _ _ E) as (x & y & Hl & Hi & Hy).
  assert (Hb : b = (string_of_list_ascii x ++ String "." (string_of_list_ascii y))%string).
  { rewrite <- (string_of_list_ascii_of_string b), Hl, string_of_list_ascii_app. reflexivity. }
  assert (Hx : List.length x = String.length (string_of_list_ascii x))
    by (rewrite length_string_of_list_ascii; reflexivity).
  rewrite Hb. rewrite Hi. cbn [Nat.add]. rewrite Hx, substring_app_l.
  exists (string_of_list_ascii y). split; [|split].
  - rewrite str_length_app. replace (String.length (string_of_list_ascii x) +
        String.length (String "." (string_of_list_ascii y)) - String.length (string_of_list_ascii x))%nat
      with (String.length (String "." (string_of_list_ascii y))) by lia.
    apply substring_full.
  - rewrite has_char_existsb, list_ascii_of_string_of_list_ascii. exact Hy.
  - rewrite Hb, has_char_app in Hns. apply orb_false_iff in Hns as [_ Hns]. exact Hns.
Qed.


Lemma has_dotdot_cons_nodot x t : Str.is_dot x = false -> Str.has_dotdot (String x t) = Str.has_dotdot t.
Proof.
  intros Hx. destruct t as [|y t]; [reflexivity|].
  change (Str.has_dotdot (String x (String y t))) with
    ((Str.is_dot x && Str.is_dot y) || Str.has_dotdot (String y t))%bool.
  rewrite Hx. reflexivity.
Qed.

Lemma has_dotdot_nodot s : Str.has_char Str.is_dot s = false -> Str.has_dotdot s = false.
Proof.
  induction s as [|x s IH]; [reflexivity|]. cbn [Str.has_char]. intros H.
  apply orb_false_iff in H as [Hx H]. rewrite has_dotdot_cons_nodot by exact Hx. apply IH, H.
Qed.

Lemma has_dotdot_app_nodot (a b : string) :
  Str.has_char Str.is_dot a = false -> Str.has_dotdot (a ++ b)%string = Str.has_dotdot b.
Proof.
  induction a as [|x a IH]; [reflexivity|]. rewrite str_app_cons. cbn [Str.has_char]. intros H.
  apply orb_false_iff in H as [Hx H]. rewrite has_dotdot_cons_nodot by exact Hx. apply IH, H.
Qed.

Lemma ext_no_dotdot e :
  (e = "" \/ exists rest, e = String "." rest /\
     Str.has_char Str.is_dot rest = false /\ Str.has_char Str.is_slash rest = false) ->
  Str.has_dotdot e = false.
Proof.
  intros [->|(rest & -> & Hd & _)]; [reflexivity|].
  destruct rest as [|y r]; [reflexivity|]. cbn [Str.has_char] in Hd.
  apply orb_false_iff in Hd as [Hy Hd].
  change (Str.has_dotdot (String "." (String y r))) with
    ((Str.is_dot "." && Str.is_dot y) || Str.has_dotdot (String y r))%bool.
  rewrite Hy, andb_false_r. cbn [orb].
  apply has_dotdot_nodot. cbn [Str.has_char]. rewrite Hy, Hd. reflexivity.
Qed.

Lemma ext_no_slash e :
  (e = "" \/ exists rest, e = String "." rest /\
     Str.has_char Str.is_dot rest = false /\ Str.has_char Str.is_slash rest = false) ->
  Str.has_char Str.is_slash e = false.
Proof. intros [->|(rest & -> & _ & Hs)]; [reflexivity|]. exact Hs. Qed.

(** [path.extname] of a name made of safe characters followed by an
    extension is that extension. *)
Lemma extname_after_safe (P e : string) :
  P <> "" -> Str.has_char (fun c => negb (Names.is_safe c)) P = false ->
  (e = "" \/ exists rest, e = String "." rest /\
     Str.has_char Str.is_dot rest = false /\ Str.has_char Str.is_slash rest = false) ->
  Str.extname (P ++ e)%string = e.
Proof.
  intros Hne Hsafe He.
  pose proof (safe_not _ P slash_unsafe Hsafe) as HPs.
  pose proof (safe_not _ P dot_unsafe Hsafe) as HPd.
  unfold Str.extname.
  rewrite basename_no_slash by (rewrite has_char_app, HPs; apply ext_no_slash, He).
  destruct He as [->|(rest & -> & Hd & Hs)].
  - rewrite str_app_nil_r, last_dot_from_none; [reflexivity|].
    rewrite <- has_char_existsb. exact HPd.
  - rewrite list_ascii_of_string_app, last_dot_from_app. cbn [list_ascii_of_string Str.last_dot_from].
    rewrite last_dot_from_none by (rewrite <- has_char_existsb; exact Hd).
    change (Str.is_dot "."%char) with true. cbn [Nat.add].
    rewrite length_list_ascii_of_string.
    destruct P as [|p P']; [contradiction|].
    assert (Hp : Str.is_dot p = false) by (cbn in HPd; apply orb_false_iff in HPd; apply HPd).
    cbn [String.length].
    destruct (String.eqb (String p P' ++ String "." rest)%string "..") eqn:Eb.
    + apply String.eqb_eq in Eb. rewrite str_app_cons in Eb. injection Eb as Ep _. subst p.
      discriminate.
    + change (S (String.length P')) with (String.length (String p P')).
      rewrite substring_app_l.
      rewrite str_length_app.
      replace (String.length (String p P') + String.length (String "." rest) - String.length (String p P'))%nat
        with (String.length (String "." rest)) by lia.
      apply substring_full.
Qed.

(** X: the name [generateUniqueFilename] gives an upload never contains
    a '/', keeps the extension of the original name, and passes through
    [validateFileId] unchanged exactly when that extension contains no
    '\'; with a '\' in the extension the stored file's id is rewritten by
    [validateFileId], so the file cannot be looked up by its own id. *)
Theorem generateUniqueFilename_props o t r :
  let g := Names.generateUniqueFilename o t r in
  Str.has_char Str.is_slash g = false /\
  Str.extname g = Str.extname o /\
  (validateFileId g = Some g <-> Str.has_char Str.is_backslash (Str.extname o) = false).
Proof.
  cbv zeta. rewrite generated_split.
  set (P := (substring 0 50 (Names.replace_unsafe (Names.basename_ext o (Str.extname o))) ++ "_" ++
             Names.decimal t ++ "_" ++ Names.hex r)%string).
  pose proof (generated_prefix_safe o t r) as Hsafe. fold P in Hsafe.
  assert (Hne : P <> "").
  { intros H. assert (Hl : String.length P = 0%nat) by (rewrite H; reflexivity).
    unfold P in Hl. rewrite !str_length_app in Hl. cbn [String.length] in Hl. lia. }
  pose proof (extname_shape o) as He.
  pose proof (safe_not _ P slash_unsafe Hsafe) as HPs.
  pose proof (safe_not _ P dot_unsafe Hsafe) as HPd.
  pose proof (safe_not _ P backslash_unsafe Hsafe) as HPb.
  split; [|split].
  - rewrite has_char_app, HPs. apply ext_no_slash, He.
  - apply extname_after_safe; assumption.
  - rewrite validateFileId_id_iff, !has_char_app, HPs, HPb, has_dotdot_app_nodot by exact HPd.
    rewrite ext_no_slash, ext_no_dotdot by exact He. cbn [orb]. split.
    + intros (_ & _ & H & _). exact H.
    + intros H. repeat split; try reflexivity; [|exact H].
      intros Hg. assert (Hl : String.length (P ++ Str.extname o)%string = 0%nat) by (rewrite Hg; reflexivity).
      rewrite str_length_app in Hl. destruct P; [contradiction|]. cbn in Hl. lia.
Qed.


(** *** The lifecycle service *)

Lemma service_invariant cs :
  let s := Service.run cs in
  Service.intervals s = match Service.cleanupTimer s with Some t => [t] | None => [] end /\
  (Service.isRunning s = true <-> is_Some (Service.cleanupTimer s)).
Proof.
  unfold Service.run. cbv zeta.
  assert (Hinit : Service.intervals Service.initial =
                  match Service.cleanupTimer Service.initial with Some t => [t] | None => [] end /\
                  (Service.isRunning Service.initial = true <-> is_Some (Service.cleanupTimer Service.initial))).
  { cbn. split; [reflexivity|]. split; [discriminate|intros [? H]; discriminate]. }
  revert Hinit. generalize Service.initial as s0.
  induction cs as [|c cs IH]; intros s0 [Hi Hr]; [split; assumption|].
  cbn [fold_left]. apply IH.
  destruct s0 as [timer running ivs nt runs]. cbn in Hi, Hr.
  destruct c; cbn [Service.exec].
  - unfold Service.start. cbn [Service.isRunning].
    destruct running; [split; assumption|].
    destruct timer as [t|]; [destruct Hr as [_ H]; specialize (H ltac:(eexists; reflexivity)); discriminate|].
    cbn. subst ivs. split; [reflexivity|]. split; [intros _; eexists; reflexivity|reflexivity].
  - unfold Service.stop. cbn [Service.isRunning negb].
    destruct running; cbn [negb]; [|split; assumption].
    destruct timer as [t|]; cbn.
    + subst ivs. cbn. destruct (Nat.eq_dec t t) as [_|Hn]; [|contradiction].
      split; [reflexivity|]. split; [discriminate|intros [? H]; discriminate].
    + destruct Hr as [H _]. specialize (H eq_refl). destruct H as [? H]. discriminate.
  - unfold Service.tick. cbn. split; assumption.
Qed.

(** X: however [start()], [stop()] and timer periods are interleaved,
    the service has at most one active interval, exactly its
    [cleanupTimer], and it is running exactly when it holds a timer; so
    each period starts [runCleanup()] once while running and never when
    stopped, and a repeated [start()] adds no second interval. *)
Theorem service_single_interval cs :
  let s := Service.run cs in
  Service.intervals s = match Service.cleanupTimer s with Some t => [t] | None => [] end /\
  (Service.isRunning s = true <-> is_Some (Service.cleanupTimer s)) /\
  Service.cleanupRuns (Service.tick s) =
    (Service.cleanupRuns s + if Service.isRunning s then 1 else 0)%nat.
Proof.
  cbv zeta. destruct (service_invariant cs) as [Hi Hr]. split; [exact Hi|]. split; [exact Hr|].
  cbn [Service.tick Service.cleanupRuns]. rewrite Hi.
  destruct (Service.isRunning (Service.run cs)) eqn:E.
  - destruct (proj1 Hr eq_refl) as [t Ht]. rewrite Ht. reflexivity.
  - destruct (Service.cleanupTimer (Service.run cs)) as [t|] eqn:Ht; [|reflexivity].
    assert (H : false = true) by (apply Hr; eexists; reflexivity). discriminate.
Qed.

(** *** The error handler *)

Lemma str_includes_app (a b t : string) :
  Routes.str_includes b t = true -> Routes.str_includes (a ++ b)%string t = true.
Proof.
  intros H. induction a as [|x a IH]; [exact H|]. rewrite str_app_cons.
  cbn [Routes.str_includes]. rewrite IH. apply orb_true_r.
Qed.

(** X: a file the multer [fileFilter] rejects (blocked extension or
    MIME type not allowed) is answered by [errorHandler] with status 400
    and the filter's own message, not with a 500. *)
Theorem fileFilter_rejection_is_400 c name mime e :
  fileFilter c name mime = Some e ->
  Routes.errorHandler (Routes.fileFilter_error e) = (400, Routes.err_message (Routes.fileFilter_error e)).
Proof.
  intros H. destruct (fileFilter_errors c name mime e H) as [[x ->]|[x ->]];
    unfold Routes.errorHandler; cbn [Routes.fileFilter_error Routes.code_is Routes.err_code Routes.err_message].
  - rewrite (str_includes_app "File type " _ "not allowed")
      by (apply str_includes_app; reflexivity).
    reflexivity.
  - rewrite (str_includes_app "MIME type " _ "not allowed")
      by (apply str_includes_app; reflexivity).
    reflexivity.
Qed.


(** *** The listing route *)

Lemma insert_newest_perm x l : Routes.insert_newest x l ≡ₚ x :: l.
Proof.
  induction l as [|y l IH]; [reflexivity|]. cbn.
  destruct (uploadedAt y <=? uploadedAt x); [reflexivity|].
  rewrite IH. apply Permutation_swap.
Qed.

Lemma sort_newest_first_perm l : Routes.sort_newest_first l ≡ₚ l.
Proof.
  induction l as [|x l IH]; [reflexivity|]. unfold Routes.sort_newest_first. cbn [fold_right].
  rewrite insert_newest_perm. f_equiv. exact IH.
Qed.

Lemma insert_newest_sorted x l :
  Sorted (fun a b => uploadedAt b <= uploadedAt a) l ->
  Sorted (fun a b => uploadedAt b <= uploadedAt a) (Routes.insert_newest x l).
Proof.
  induction l as [|y l IH]; intros Hs; cbn.
  - repeat constructor.
  - destruct (uploadedAt y <=? uploadedAt x) eqn:E.
    + apply N.leb_le in E. constructor; [exact Hs|]. constructor. exact E.
    + apply N.leb_gt in E. apply Sorted_inv in Hs as [Hs Hhd].
      constructor; [apply IH, Hs|].
      destruct l as [|z l]; cbn.
      * constructor. lia.
      * apply HdRel_inv in Hhd.
        destruct (uploadedAt z <=? uploadedAt x); constructor; lia.
Qed.

(** X: [GET /files] lists every stored record exactly once, newest
    upload first, reports their number and the total of their sizes, and
    changes nothing. *)
Theorem listFiles_newest_first w :
  exists L, Routes.listFiles w = (Ok L, w) /\
  Routes.listed L ≡ₚ values w /\
  Sorted (fun a b => uploadedAt b <= uploadedAt a) (Routes.listed L) /\
  Routes.totalFiles L = List.length (values w) /\
  Routes.totalStorage L = total_size (mem w).
Proof.
  eexists. split; [reflexivity|]. cbn [Routes.listed Routes.totalFiles Routes.totalStorage].
  split; [|split; [|split]].
  - apply sort_newest_first_perm.
  - unfold Routes.sort_newest_first. induction (values w) as [|x l IH]; cbn [fold_right].
    + constructor.
    + apply insert_newest_sorted, IH.
  - apply Permutation_length, sort_newest_first_perm.
  - reflexivity.
Qed.


(** X: whatever its answer, the upload route changes no file other than
    the one under the generated name, no lock and no writability, and
    either leaves the records as they were or adds exactly the record
    built from the request under the generated name. *)
Theorem upload_touches_only_its_name c sn rq w :
  let w' := snd (upload c sn rq w) in
  locked w' = locked w /\
  meta_writable w' = meta_writable w /\
  (forall q, q <> generated_name rq -> disk w' !! q = disk w !! q) /\
  (mem w' = mem w \/ mem w' = <[generated_name rq := make_record c (req_date rq) (req_now rq) (multer_file_of rq)]> (mem w)).
Proof. apply upload_world. Qed.

(** ** Witnesses *)

Lemma upload_keeps_storage_within_quota_witness :
  total_size (mem expired_world) <= maxStorageBytes cfg /\
  total_size (mem (snd (upload cfg sniff (req "notes.txt" "text/plain" "hello" "notes_1000_ab.txt")
                                 expired_world))) <= maxStorageBytes cfg.
Proof.
  assert (H : total_size (mem expired_world) <= maxStorageBytes cfg)
    by (apply N.leb_le; vm_compute; reflexivity).
  split; [exact H|]. apply upload_keeps_storage_within_quota. exact H.
Defined.

Lemma upload_created_is_stored_witness :
  let rq := req "notes.txt" "text/plain" "hello" "notes_1000_ab.txt" in
  exists r w', upload cfg sniff rq expired_world = (Ok (Created r), w') /\
  r = make_record cfg (req_date rq) (req_now rq) (multer_file_of rq) /\
  disk w' !! generated_name rq = Some (req_content rq) /\
  mem w' !! generated_name rq = Some r /\
  snap w' = Some (mem w').
Proof.
  cbv zeta. do 2 eexists. split; [vm_compute; reflexivity|].
  apply upload_created_is_stored with (sn := sniff) (w := expired_world). vm_compute. reflexivity.
Defined.

Lemma deleteFileRoute_outcomes_witness :
  let r := rec_of "a_1_aa.txt" 2 10 in
  validateFileId "a_1_aa.txt" = Some "a_1_aa.txt" /\
  mem expired_world !! "a_1_aa.txt" = Some r /\
  let w' := snd (Routes.deleteFileRoute "a_1_aa.txt" expired_world) in
  if decide (path r ∈ locked expired_world) then
    fst (Routes.deleteFileRoute "a_1_aa.txt" expired_world) = Ok (Routes.NextError EPERM) /\
    disk w' = disk expired_world /\ mem w' = mem expired_world /\ snap w' = snap expired_world
  else
    fst (Routes.deleteFileRoute "a_1_aa.txt" expired_world) =
      Ok (if meta_writable expired_world then Routes.FileDeleted (id r) (originalName r)
          else Routes.NextError PersistFailed) /\
    disk w' = delete (path r) (disk expired_world) /\ mem w' = delete "a_1_aa.txt" (mem expired_world) /\
    snap w' = (if meta_writable expired_world then Some (mem w') else failed_snap expired_world).
Proof.
  assert (Hv : validateFileId "a_1_aa.txt" = Some "a_1_aa.txt") by (vm_compute; reflexivity).
  assert (Hr : mem expired_world !! "a_1_aa.txt" = Some (rec_of "a_1_aa.txt" 2 10))
    by (vm_compute; reflexivity).
  split; [exact Hv|]. split; [exact Hr|].
  exact (deleteFileRoute_outcomes "a_1_aa.txt" "a_1_aa.txt" _ expired_world Hv Hr).
Defined.

Lemma upload_then_delete_witness :
  let rq := req "notes.txt" "text/plain" "hello" "notes_1000_ab.txt" in
  exists r w1, upload cfg sniff rq expired_world = (Ok (Created r), w1) /\
  validateFileId (generated_name rq) = Some (generated_name rq) /\
  (generated_name rq ∉ locked expired_world) /\
  ("a_1_aa.txt" <> generated_name rq) /\ ("b_1_bb.txt" <> generated_name rq) /\
  (let w2 := snd (Routes.deleteFileRoute (generated_name rq) w1) in
   fst (Routes.deleteFileRoute (generated_name rq) w1) =
     Ok (Routes.FileDeleted (generated_name rq) (req_originalname rq)) /\
   disk w2 !! generated_name rq = None /\
   mem w2 !! generated_name rq = None /\
   snap w2 = Some (mem w2) /\
   disk w2 !! "a_1_aa.txt" = disk expired_world !! "a_1_aa.txt" /\
   mem w2 !! "b_1_bb.txt" = mem expired_world !! "b_1_bb.txt").
Proof.
  cbv zeta. do 2 eexists.
  assert (Hu : upload cfg sniff (req "notes.txt" "text/plain" "hello" "notes_1000_ab.txt") expired_world =
               (Ok (Created (make_record cfg 1000 1000 (multer_file_of
                  (req "notes.txt" "text/plain" "hello" "notes_1000_ab.txt")))),
                snd (upload cfg sniff (req "notes.txt" "text/plain" "hello" "notes_1000_ab.txt")
                       expired_world)))
    by (vm_compute; reflexivity).
  split; [exact Hu|].
  assert (Hv : validateFileId "notes_1000_ab.txt" = Some "notes_1000_ab.txt") by (vm_compute; reflexivity).
  assert (Hl : "notes_1000_ab.txt" ∉ locked expired_world) by (vm_compute; set_solver).
  assert (Hq : "a_1_aa.txt" <> "notes_1000_ab.txt") by discriminate.
  assert (Hk : "b_1_bb.txt" <> "notes_1000_ab.txt") by discriminate.
  repeat (split; [assumption|]).
  exact (upload_then_delete cfg sniff _ expired_world _ _ _ _ Hu Hv Hl Hq Hk).
Defined.

Lemma upload_then_download_witness :
  let rq := req "notes.txt" "text/plain" "hello" "notes_1000_ab.txt" in
  exists r w1, upload cfg sniff rq expired_world = (Ok (Created r), w1) /\
  validateFileId (generated_name rq) = Some (generated_name rq) /\
  Routes.downloadFile (generated_name rq) w1 =
    (Ok (Routes.FileDownload (req_mimetype rq)
           ("attachment; filename=" ++ Routes.quote ++ req_originalname rq ++ Routes.quote)
           (N.of_nat (String.length (req_content rq))) (req_content rq)), w1).
Proof.
  cbv zeta. do 2 eexists.
  assert (Hu : upload cfg sniff (req "notes.txt" "text/plain" "hello" "notes_1000_ab.txt") expired_world =
               (Ok (Created (make_record cfg 1000 1000 (multer_file_of
                  (req "notes.txt" "text/plain" "hello" "notes_1000_ab.txt")))),
                snd (upload cfg sniff (req "notes.txt" "text/plain" "hello" "notes_1000_ab.txt")
                       expired_world)))
    by (vm_compute; reflexivity).
  assert (Hv : validateFileId "notes_1000_ab.txt" = Some "notes_1000_ab.txt") by (vm_compute; reflexivity).
  split; [exact Hu|]. split; [exact Hv|].
  exact (upload_then_download cfg sniff _ expired_world _ _ Hu Hv).
Defined.

Lemma getFileInfo_outcomes_witness :
  validateFileId "gone_1_aa.txt" = Some "gone_1_aa.txt" /\
  disk (snd (Routes.getFileInfo "gone_1_aa.txt" sweep_world)) = disk sweep_world /\
  match mem sweep_world !! "gone_1_aa.txt" with
  | None => Routes.getFileInfo "gone_1_aa.txt" sweep_world = (Ok Routes.FileNotFound, sweep_world)
  | Some r =>
      if exists_on_disk (path r) sweep_world
      then Routes.getFileInfo "gone_1_aa.txt" sweep_world = (Ok (Routes.FileInfo r), sweep_world)
      else
        fst (Routes.getFileInfo "gone_1_aa.txt" sweep_world) =
          Ok (if meta_writable sweep_world then Routes.FileNotFoundOnDisk
              else Routes.NextError PersistFailed) /\
        mem (snd (Routes.getFileInfo "gone_1_aa.txt" sweep_world)) =
          delete "gone_1_aa.txt" (mem sweep_world)
  end.
Proof.
  assert (Hv : validateFileId "gone_1_aa.txt" = Some "gone_1_aa.txt") by (vm_compute; reflexivity).
  split; [exact Hv|]. exact (getFileInfo_outcomes _ _ sweep_world Hv).
Defined.

Lemma addFile_then_deleteFile_witness :
  let fd := multer_file "a.txt" "text/plain" "a_1_01.txt" 5 in
  mem expired_world !! mf_filename fd = None /\
  let w1 := snd (addFile cfg 1000 1000 fd expired_world) in
  let w2 := snd (deleteFile (mf_filename fd) w1) in
  total_size (mem w1) = total_size (mem expired_world) + mf_size fd /\
  mem w2 = mem expired_world /\
  snap w2 = (if meta_writable expired_world then Some (mem expired_world)
             else failed_snap expired_world).
Proof.
  cbv zeta.
  assert (H : mem expired_world !! "a_1_01.txt" = None) by (vm_compute; reflexivity).
  split; [exact H|].
  exact (addFile_then_deleteFile cfg 1000 1000 (multer_file "a.txt" "text/plain" "a_1_01.txt" 5) expired_world H).
Defined.

Lemma cleanOrphanedMetadata_removes_missing_witness :
  keys_are_ids (mem sweep_world) /\
  let orphaned := List.filter (fun r => negb (exists_on_disk (path r) sweep_world)) (values sweep_world) in
  let w' := snd (cleanOrphanedMetadata sweep_world) in
  (forall k, mem w' !! k =
     match mem sweep_world !! k with
     | Some r => if exists_on_disk (path r) sweep_world then Some r else None
     | None => None
     end) /\
  disk w' = disk sweep_world /\
  fst (cleanOrphanedMetadata sweep_world) =
    (if ((0 <? List.length orphaned)%nat && negb (meta_writable sweep_world))%bool
     then Err PersistFailed
     else Ok (N.of_nat (List.length orphaned))) /\
  snap w' = (if (0 <? List.length orphaned)%nat then
               if meta_writable sweep_world then Some (mem w') else failed_snap sweep_world
             else snap sweep_world).
Proof.
  assert (Hk : keys_are_ids (mem sweep_world)) by (apply (bool_decide_unpack _); vm_compute; exact I).
  split; [exact Hk|]. exact (cleanOrphanedMetadata_removes_missing sweep_world Hk).
Defined.

Lemma cleanOrphanedMetadata_idempotent_witness :
  exists n w', keys_are_ids (mem expired_world) /\
  cleanOrphanedMetadata expired_world = (Ok n, w') /\
  cleanOrphanedMetadata w' = (Ok 0, w').
Proof.
  assert (Hk : keys_are_ids (mem expired_world)) by (apply (bool_decide_unpack _); vm_compute; exact I).
  do 2 eexists. split; [exact Hk|].
  assert (Hc : cleanOrphanedMetadata expired_world =
               (Ok 1, snd (cleanOrphanedMetadata expired_world))) by (vm_compute; reflexivity).
  split; [exact Hc|]. exact (cleanOrphanedMetadata_idempotent expired_world 1 _ Hk Hc).
Defined.

Lemma persist_then_initialize_witness :
  keys_are_ids (mem expired_world) /\
  Init.initialize false ∅ (Init.persisted (mem expired_world)) = Some (true, mem expired_world).
Proof.
  assert (Hk : keys_are_ids (mem expired_world)) by (apply (bool_decide_unpack _); vm_compute; exact I).
  split; [exact Hk|]. exact (persist_then_initialize _ Hk).
Defined.

Lemma addFile_failed_write_on_restart_witness :
  let fd := multer_file "notes.txt" "text/plain" "notes_1000_ab.txt" 5 in
  exists e w', addFile cfg 1000 1000 fd full_world = (Err e, w') /\
  Init.initialize false ∅ (Init.meta_file (snap w')) =
    (if meta_truncates full_world then None
     else Init.initialize false ∅ (Init.meta_file (snap full_world))).
Proof.
  cbv zeta. do 2 eexists.
  assert (H : addFile cfg 1000 1000 (multer_file "notes.txt" "text/plain" "notes_1000_ab.txt" 5)
                full_world =
              (Err PersistFailed,
               snd (addFile cfg 1000 1000 (multer_file "notes.txt" "text/plain" "notes_1000_ab.txt" 5)
                      full_world)))
    by (vm_compute; reflexivity).
  split; [exact H|]. exact (addFile_failed_write_on_restart _ _ _ _ _ _ _ H).
Defined.

Lemma cleanupExpiredFiles_effect_witness :
  keys_are_ids (mem expired_world) /\
  let expired := List.filter (fun r => expiresAt r <=? 20) (values expired_world) in
  let w' := snd (cleanupExpiredFiles 20 expired_world) in
  fst (cleanupExpiredFiles 20 expired_world) =
    Ok (if meta_writable expired_world then N.of_nat (List.length expired) else 0) /\
  (forall k, mem w' !! k =
     match mem expired_world !! k with
     | Some r => if expiresAt r <=? 20 then None else Some r
     | None => None
     end) /\
  (forall q, disk w' !! q =
     if (bool_decide (q ∈ map path expired) && negb (bool_decide (q ∈ locked expired_world)))%bool
     then None else disk expired_world !! q) /\
  snap w' = (if (0 <? List.length expired)%nat then
               if meta_writable expired_world then Some (mem w') else failed_snap expired_world
             else snap expired_world).
Proof.
  assert (Hk : keys_are_ids (mem expired_world)) by (apply (bool_decide_unpack _); vm_compute; exact I).
  split; [exact Hk|]. exact (cleanupExpiredFiles_effect 20 expired_world Hk).
Defined.

Lemma fileFilter_rejection_is_400_witness :
  fileFilter cfg "run.exe" "application/x-msdownload" = Some (ExtensionBlocked ".exe") /\
  Routes.errorHandler (Routes.fileFilter_error (ExtensionBlocked ".exe")) =
    (400, Routes.err_message (Routes.fileFilter_error (ExtensionBlocked ".exe"))).
Proof.
  assert (H : fileFilter cfg "run.exe" "application/x-msdownload" = Some (ExtensionBlocked ".exe"))
    by (vm_compute; reflexivity).
  split; [exact H|]. exact (fileFilter_rejection_is_400 _ _ _ _ H).
Defined.

End More.
